(** * StopitHarassment PWA: emergency orchestration, durable store, Bluetooth queue

    A shallow embedding of the emergency manager (js/emergency.js), the
    IndexedDB storage manager (js/storage.js) and the Bluetooth manager
    (bluetooth.js), followed by the properties of the orchestration and
    dispatch subsystem that the specification states about them.

    Conventions of the embedding:
    - an [async] method is a function from the state it can touch to a
      completion (normal return or thrown error) and the state it leaves;
    - the answers of the platform and of the collaborators (geolocation,
      microphone, Firestore, GATT writes, IndexedDB requests, the clock) are
      read from an environment record, one answer per call site;
    - branches run under [Promise.allSettled] touch disjoint counters and are
      sequenced in the order in which the source starts them; so are the
      callbacks of a [forEach];
    - a thrown value is an [Error] object with a [message]. *)

From Stdlib Require Import String List ZArith Bool Arith Lia Permutation Sorted.
From Stdlib Require Import OrderedTypeEx RelationClasses.
Import ListNotations.
Local Open Scope string_scope.
Local Open Scope list_scope.

(* ------------------------------------------------------------------ *)
(** ** JavaScript completions and stateful methods *)

Module Js.

(** A thrown value: an [Error] object, of which the code reads [message]. *)
Record Error : Type := mkError { message : string }.

Inductive completion (A : Type) : Type :=
| Return (a : A)
| Throw (e : Error).
Arguments Return {A} a.
Arguments Throw {A} e.

(** A method over a state [W]. *)
Definition M (W A : Type) : Type := W -> completion A * W.

Definition ret {W A} (a : A) : M W A := fun w => (Return a, w).

Definition throw {W A} (e : Error) : M W A := fun w => (Throw e, w).

Definition bind {W A B} (m : M W A) (k : A -> M W B) : M W B :=
  fun w =>
    match m w with
    | (Return a, w') => k a w'
    | (Throw e, w') => (Throw e, w')
    end.

(** [try { m } catch (e) { h e }] *)
Definition try_catch {W A} (m : M W A) (h : Error -> M W A) : M W A :=
  fun w =>
    match m w with
    | (Return a, w') => (Return a, w')
    | (Throw e, w') => h e w'
    end.

(** [await p] for a promise that settles with the completion [c]. *)
Definition await {W A} (c : completion A) : M W A := fun w => (c, w).

Definition gets {W A} (f : W -> A) : M W A := fun w => (Return (f w), w).

Definition modify {W} (f : W -> W) : M W unit := fun w => (Return tt, f w).

(** One promise under [Promise.allSettled]: its rejection is a value. *)
Definition settled {W A} (m : M W A) : M W (completion A) :=
  fun w => let (c, w') := m w in (Return c, w').

(** Run a method of a component stored inside a larger state. *)
Definition zoom {W S A} (get : W -> S) (set : S -> W -> W) (m : M S A) : M W A :=
  fun w => let (c, s') := m (get w) in (c, set s' w).

(** [for (const x of xs) { body x }] *)
Fixpoint for_of {W A} (xs : list A) (body : A -> M W unit) : M W unit :=
  match xs with
  | [] => ret tt
  | x :: rest => bind (body x) (fun _ => for_of rest body)
  end.

(** [a || b] on strings and numbers: the empty string and 0 are falsy. *)
Definition or_string (a b : string) : string :=
  if String.eqb a EmptyString then b else a.

Definition or_number (a b : Z) : Z :=
  if Z.eqb a 0 then b else a.

End Js.

Import Js.

Declare Scope js_scope.
Delimit Scope js_scope with js.
Notation "x <- m ;; k" := (bind m (fun x => k))
  (at level 61, m at next level, right associativity) : js_scope.
Notation "m ;; k" := (bind m (fun _ => k))
  (at level 61, right associativity) : js_scope.
Local Open Scope js_scope.

(* ------------------------------------------------------------------ *)
(** ** Data carried by an emergency *)

Record Location : Type := mkLocation {
  latitude : Z;
  longitude : Z;
  address : option string
}.

(** What [startEmergencyAudioRecording] resolves to when it is not [null]. *)
Inductive AudioRecording : Type :=
| RecordingStarted (startTime maxDuration : Z)   (* {started: true, startTime, maxDuration} *)
| RecordingFailed (error : string).              (* {started: false, error} *)

Record Contact : Type := mkContact {
  contact_id : string;
  contact_name : string;
  contact_email : string
}.

(** The object built by [executeEmergencyProcedures]. *)
Record EmergencyData : Type := mkEmergencyData {
  ed_location : option Location;
  ed_audioRecording : option AudioRecording;
  ed_contacts : list Contact;
  ed_timestamp : Z;
  ed_emergencyId : option string
}.

(** One channel's counters inside [results]. *)
Record ChannelCounters : Type := mkCounters {
  sent : nat;
  failed : nat;
  errors : list string
}.

Record AlertResults : Type := mkResults {
  res_bluetooth : ChannelCounters;
  res_firebase : ChannelCounters;
  res_authorities : ChannelCounters;
  totalSent : nat;
  totalFailed : nat
}.

(** A row of the [emergencies] object store, as [saveEmergency] writes it.
    Properties a caller leaves out are [None]; [rec_id] and [rec_timestamp]
    are read through [||], under which a missing value, the empty string and
    0 behave alike. *)
Record EmergencyRecord : Type := mkRecord {
  rec_id : string;
  rec_type : string;
  rec_data : option EmergencyData;
  rec_alertResults : option AlertResults;
  rec_timestamp : Z;
  rec_status : option string;
  rec_originalId : option string;
  rec_duration : option Z;
  rec_source : option string;
  rec_synced : bool;
  rec_createdAt : string;
  rec_syncedAt : option string
}.

(* ------------------------------------------------------------------ *)
(** ** js/storage.js *)

Module Storage.

(** The [emergencies] object store: rows in primary-key ([id]) order, the
    order in which IndexedDB iterates a store and an index with equal keys. *)
Definition Store : Type := list EmergencyRecord.

Definition key_lt (a b : string) : bool :=
  match String_as_OT.cmp a b with Lt => true | _ => false end.

Fixpoint store_get (k : string) (s : Store) : option EmergencyRecord :=
  match s with
  | [] => None
  | r :: rest => if String.eqb (rec_id r) k then Some r else store_get k rest
  end.

(** Position a row by its key; a row with that key is replaced. *)
Fixpoint store_insert (r : EmergencyRecord) (s : Store) : Store :=
  match s with
  | [] => [r]
  | r' :: rest =>
      if String.eqb (rec_id r') (rec_id r) then r :: rest
      else if key_lt (rec_id r) (rec_id r') then r :: r' :: rest
      else r' :: store_insert r rest
  end.

Record AudioRow : Type := mkAudioRow {
  audio_id : string;
  audio_emergencyId : option string;
  audio_duration : Z;
  audio_type : string
}.

Record Database : Type := mkDatabase {
  emergencies : Store;
  contacts : list Contact;
  (** value of the [settings] row with key 'audioRecording', when it is a boolean *)
  audioRecordingSetting : option bool;
  audioRecordings : list AudioRow
}.

Definition set_emergencies (s : Store) (d : Database) : Database :=
  mkDatabase s (contacts d) (audioRecordingSetting d) (audioRecordings d).

Definition add_audioRow (a : AudioRow) (d : Database) : Database :=
  mkDatabase (emergencies d) (contacts d) (audioRecordingSetting d) (audioRecordings d ++ [a]).

(** Platform answers for one storage call. [requestFault] is an IndexedDB
    request that fails for a reason of the platform's own (quota, closed
    connection, aborted transaction). *)
Record Env : Type := mkEnv {
  generateId : string;
  dateNow : Z;
  isoNow : string;
  requestFault : option Error
}.

Definition ConstraintError : Error :=
  mkError "Key already exists in the object store".

Definition request {A} (env : Env) (m : M Database A) : M Database A :=
  match requestFault env with
  | Some e => throw e
  | None => m
  end.

(** [store.add(row)]: rejected when the key is taken. *)
Definition add (env : Env) (row : EmergencyRecord) : M Database unit :=
  request env (fun d =>
    match store_get (rec_id row) (emergencies d) with
    | Some _ => (Throw ConstraintError, d)
    | None => (Return tt, set_emergencies (store_insert row (emergencies d)) d)
    end).

(** [store.put(row)]: insert or replace. *)
Definition put (env : Env) (row : EmergencyRecord) : M Database unit :=
  request env (modify (fun d => set_emergencies (store_insert row (emergencies d)) d)).

(** [{...emergencyData, id: .. || generateId(), timestamp: .. || Date.now(),
      synced: false, createdAt: ..}] *)
Definition stamp (env : Env) (emergencyData : EmergencyRecord) : EmergencyRecord :=
  mkRecord
    (or_string (rec_id emergencyData) (generateId env))
    (rec_type emergencyData)
    (rec_data emergencyData)
    (rec_alertResults emergencyData)
    (or_number (rec_timestamp emergencyData) (dateNow env))
    (rec_status emergencyData)
    (rec_originalId emergencyData)
    (rec_duration emergencyData)
    (rec_source emergencyData)
    false
    (isoNow env)
    (rec_syncedAt emergencyData).

Definition saveEmergency (env : Env) (emergencyData : EmergencyRecord) : M Database string :=
  try_catch
    (let data := stamp env emergencyData in
     add env data ;;
     ret (rec_id data))
    (fun error => throw error).

(** A value given to IndexedDB where it takes a key: the value of an
    indexed property, or the query of a lookup. Numbers and strings are
    valid keys; a boolean is not. *)
Inductive KeyValue : Type :=
| KString (s : string)
| KNumber (z : Z)
| KBoolean (b : bool).

Definition valid_key (v : KeyValue) : bool :=
  match v with
  | KBoolean _ => false
  | _ => true
  end.

Definition key_eqb (a b : KeyValue) : bool :=
  match a, b with
  | KString x, KString y => String.eqb x y
  | KNumber x, KNumber y => Z.eqb x y
  | KBoolean x, KBoolean y => Bool.eqb x y
  | _, _ => false
  end.

(** What [index.getAll] throws for a query that is not a valid key. *)
Definition DataError : Error := mkError "The parameter is not a valid key".


(** [store.index(name).getAll(query)] for the index on the property read
    by [keyPath]. A query that is not a valid key is refused with a
    DataError. The index holds the rows whose property is a valid key; the
    ones equal to the query come back, in primary-key order. *)
Definition index_getAll (keyPath : EmergencyRecord -> KeyValue) (query : KeyValue)
    (s : Store) : completion (list EmergencyRecord) :=
  if valid_key query
  then Return (filter (fun r => valid_key (keyPath r) && key_eqb (keyPath r) query) s)
  else Throw DataError.


Definition markEmergencyAsSynced (env : Env) (emergencyId : string) : M Database unit :=
  try_catch
    (emergency <- request env (gets (fun d => store_get emergencyId (emergencies d))) ;;
     match emergency with
     | Some e =>
         put env (mkRecord (rec_id e) (rec_type e) (rec_data e) (rec_alertResults e)
                    (rec_timestamp e) (rec_status e) (rec_originalId e) (rec_duration e)
                    (rec_source e) true (rec_createdAt e) (Some (isoNow env)))
     | None => ret tt
     end)
    (fun error => throw error).

Definition getContacts (env : Env) : M Database (list Contact) :=
  try_catch
    (request env (gets contacts))
    (fun _ => ret []).

(** [getSetting('audioRecording')]: the stored value, or [null]. *)
Definition getSetting_audioRecording (env : Env) : M Database (option bool) :=
  try_catch
    (request env (gets audioRecordingSetting))
    (fun _ => ret None).

Definition saveAudioRecording (env : Env) (duration : Z)
    (emergencyId : option string) (type : string) : M Database string :=
  try_catch
    (let row := mkAudioRow (generateId env) emergencyId duration type in
     request env (modify (add_audioRow row)) ;;
     ret (audio_id row))
    (fun error => throw error).

End Storage.


(* ------------------------------------------------------------------ *)
(** ** bluetooth.js *)

Module Bluetooth.

(** [alertData] as [sendBluetoothAlerts] builds it. *)
Record AlertData : Type := mkAlert {
  alert_type : string;
  alert_emergencyId : option string;
  alert_location : option Location;
  alert_timestamp : Z;
  alert_message : string
}.

Inductive Payload : Type :=
| EmergencyPayload (data : AlertData)
| TestPayload
| AckPayload (originalId : string)
| CancellationPayload (originalEmergencyId : option string).

(** An object handed to [sendMessage]. *)
Record Message : Type := mkMessage {
  msg_type : string;
  msg_timestamp : Z;
  msg_id : option string;
  msg_payload : Payload
}.

(** The callbacks the class passes to [setTimeout]. *)
Inductive Callback : Type :=
| AttemptReconnect
| ScanAndSend (alertData : AlertData)
| StopScan.

Record Manager : Type := mkManager {
  device : bool;                  (* this.device is not null *)
  characteristic : bool;          (* this.characteristic is not null *)
  isConnected : bool;
  messageQueue : list Message;
  scanning : bool;
  (** pending [setTimeout] calls: delay in milliseconds and callback *)
  timers : list (Z * Callback);
  (** the values [characteristic.writeValue] accepted, oldest first: the
      remote side of the link, not a field of the class *)
  written : list Message
}.

(** The constructor. *)
Definition new : Manager := mkManager false false false [] false [] [].

Definition set_device (b : bool) (s : Manager) : Manager :=
  mkManager b (characteristic s) (isConnected s) (messageQueue s) (scanning s) (timers s) (written s).

Definition set_characteristic (b : bool) (s : Manager) : Manager :=
  mkManager (device s) b (isConnected s) (messageQueue s) (scanning s) (timers s) (written s).

Definition set_isConnected (b : bool) (s : Manager) : Manager :=
  mkManager (device s) (characteristic s) b (messageQueue s) (scanning s) (timers s) (written s).

Definition set_messageQueue (q : list Message) (s : Manager) : Manager :=
  mkManager (device s) (characteristic s) (isConnected s) q (scanning s) (timers s) (written s).

Definition set_scanning (b : bool) (s : Manager) : Manager :=
  mkManager (device s) (characteristic s) (isConnected s) (messageQueue s) b (timers s) (written s).

Definition set_timers (t : list (Z * Callback)) (s : Manager) : Manager :=
  mkManager (device s) (characteristic s) (isConnected s) (messageQueue s) (scanning s) t (written s).

Definition setTimeout (cb : Callback) (delay : Z) (s : Manager) : Manager :=
  set_timers (timers s ++ [(delay, cb)]) s.

Definition queue_push (m : Message) (s : Manager) : Manager :=
  set_messageQueue (messageQueue s ++ [m]) s.

Definition accept_write (m : Message) (s : Manager) : Manager :=
  mkManager (device s) (characteristic s) (isConnected s) (messageQueue s) (scanning s) (timers s)
    (written s ++ [m]).

(** How one run of [connect] goes on the platform's side. *)
Inductive ConnectAnswer : Type :=
| Connects
| RequestDeviceFails (e : Error)   (* navigator.bluetooth.requestDevice rejects *)
| GattFails (e : Error)            (* gatt.connect, getPrimaryService or getCharacteristic rejects *)
| NotificationsFail (e : Error).   (* startNotifications rejects; this.characteristic is already set *)

Record Env : Type := mkEnv {
  dateNow : Z;
  generateMessageId : string;
  writeValue : Message -> completion unit;
  connectAnswer : ConnectAnswer;
  (** [requestLEScan], when the browser has it *)
  requestLEScan : option (completion unit);
  gattDisconnect : completion unit
}.

Definition sendMessage (env : Env) (message : Message) : M Manager bool :=
  try_catch
    (connected <- gets isConnected ;;
     ch <- gets characteristic ;;
     if negb connected || negb ch then
       (* Queue message for later sending *)
       modify (queue_push message) ;;
       ret false
     else
       await (writeValue env message) ;;
       modify (accept_write message) ;;
       ret true)
    (fun error =>
       (* Queue message for retry *)
       modify (queue_push message) ;;
       throw error).

Definition processMessageQueue (env : Env) : M Manager unit :=
  fun s =>
    match messageQueue s with
    | [] => (Return tt, s)
    | queue =>
        for_of queue
          (fun message => try_catch (sendMessage env message ;; ret tt) (fun _ => ret tt))
          (set_messageQueue [] s)
    end.

Definition requestDevice (env : Env) : M Manager unit :=
  try_catch
    (match connectAnswer env with
     | RequestDeviceFails e => throw e
     | _ => modify (set_device true)
     end)
    (fun error => throw error).

Definition connect (env : Env) : M Manager bool :=
  try_catch
    (d <- gets device ;;
     (if d then ret tt else requestDevice env) ;;
     match connectAnswer env with
     | GattFails e => throw e
     | NotificationsFail e => modify (set_characteristic true) ;; throw e
     | _ =>
         modify (set_characteristic true) ;;
         modify (set_isConnected true) ;;
         (* Process any queued messages *)
         processMessageQueue env ;;
         ret true
     end)
    (fun error =>
       modify (set_isConnected false) ;;
       throw error).

Definition disconnect (env : Env) : M Manager unit :=
  try_catch
    (d <- gets device ;;
     (if d then await (gattDisconnect env) else ret tt) ;;
     modify (set_isConnected false) ;;
     modify (set_characteristic false))
    (fun _ => ret tt).

Definition attemptReconnect (env : Env) : M Manager unit :=
  try_catch
    (connect env ;; ret tt)
    (fun _ =>
       (* Try again in 10 seconds *)
       modify (setTimeout AttemptReconnect 10000)).

Definition onDisconnected : M Manager unit :=
  modify (set_isConnected false) ;;
  modify (set_characteristic false) ;;
  (* Attempt to reconnect after a delay *)
  modify (setTimeout AttemptReconnect 3000).

(** The browser runs the oldest pending reconnect timer. *)
Definition fire_reconnect (env : Env) : M Manager unit :=
  fun s =>
    match timers s with
    | (_, AttemptReconnect) :: rest => attemptReconnect env (set_timers rest s)
    | _ => (Return tt, s)
    end.

Definition sendEmergencyAlert (env : Env) (alertData : AlertData) : M Manager bool :=
  try_catch
    (sendMessage env
       (mkMessage "emergency" (dateNow env) (Some (generateMessageId env))
          (EmergencyPayload alertData)))
    (fun error => throw error).

Definition sendTestAlert (env : Env) : M Manager bool :=
  try_catch
    (sendMessage env
       (mkMessage "test" (dateNow env) (Some (generateMessageId env)) TestPayload))
    (fun error => throw error).

Definition startScanning (env : Env) : M Manager unit :=
  try_catch
    (sc <- gets scanning ;;
     if sc then ret tt
     else
       modify (set_scanning true) ;;
       match requestLEScan env with
       | Some scan => await scan ;; modify (setTimeout StopScan 30000)
       | None => ret tt
       end)
    (fun _ => modify (set_scanning false)).

Definition broadcastEmergency (env : Env) (alertData : AlertData) : M Manager unit :=
  try_catch
    (connected <- gets isConnected ;;
     (* First, try to send via connected device *)
     (if connected then sendEmergencyAlert env alertData ;; ret tt else ret tt) ;;
     (* Then scan for and connect to nearby devices *)
     startScanning env ;;
     modify (setTimeout (ScanAndSend alertData) 5000))
    (fun error => throw error).

(** The teardown: the link is closed and the queue is emptied. *)
Definition destroy (env : Env) : M Manager unit :=
  settled (disconnect env) ;;
  modify (set_messageQueue []) ;;
  modify (set_scanning false).

(** What the manager goes through between construction and teardown. *)
Inductive Op : Type :=
| OpSend (env : Env) (message : Message)
| OpProcessQueue (env : Env)
| OpConnect (env : Env)
| OpDisconnect (env : Env)
| OpLinkLost
| OpTimer (env : Env).

Definition step (o : Op) (s : Manager) : Manager :=
  match o with
  | OpSend env m => snd (sendMessage env m s)
  | OpProcessQueue env => snd (processMessageQueue env s)
  | OpConnect env => snd (connect env s)
  | OpDisconnect env => snd (disconnect env s)
  | OpLinkLost => snd (onDisconnected s)
  | OpTimer env => snd (fire_reconnect env s)
  end.

Definition run (ops : list Op) (s : Manager) : Manager :=
  fold_left (fun acc o => step o acc) ops s.

(** The messages handed to [sendMessage] from outside the class. *)
Fixpoint given (ops : list Op) : list Message :=
  match ops with
  | [] => []
  | OpSend _ m :: rest => m :: given rest
  | _ :: rest => given rest
  end.

End Bluetooth.


(* ------------------------------------------------------------------ *)
(** ** js/emergency.js *)

Module Emergency.

(** The fields of [EmergencyManager]. [firebase], [bluetooth] and [audio]
    say whether the handle is set; [storage] and [location] are set
    ([init] has run). *)
Record Manager : Type := mkManager {
  firebase : bool;
  bluetooth : bool;
  audio : bool;
  isEmergencyActive : bool;
  currentEmergencyId : option string;
  emergencyStartTime : option Z;
  retryAttempts : nat;
  retryDelay : Z
}.

(** The constructor, with the handles [init] installs. *)
Definition new (firebase bluetooth audio : bool) : Manager :=
  mkManager firebase bluetooth audio false None None 3 5000.

Inductive Channel : Type := BluetoothChannel | FirebaseChannel | AuthoritiesChannel.

(** Calls that leave the manager, in the order they are made. *)
Inductive Event : Type :=
| CallSaveEmergency (row : EmergencyRecord)            (* storage.saveEmergency *)
| CallSaveAudioRecording (type : string)               (* storage.saveAudioRecording *)
| CallBroadcastEmergency (alertData : Bluetooth.AlertData)  (* bluetooth.broadcastEmergency *)
| CallBluetoothSendMessage (message : Bluetooth.Message)    (* bluetooth.sendMessage *)
| CallSaveEmergencyAlert                               (* firebase.saveEmergencyAlert *)
| CallSendEmergencyNotification (contactId type : string)   (* firebase.sendEmergencyNotification *)
| CallSendEmergencyToAuthorities                       (* firebase.sendEmergencyToAuthorities *)
| CallFetchNotifyAuthorities                           (* fetch('/api/emergency/notify-authorities') *)
| CallStartRecording                                   (* audio.startRecording *)
| CallStopRecording                                    (* audio.stopRecording *)
| CallSetTimeout (delay : Z).

(** Everything an operation of the manager can read or change. *)
Record World : Type := mkWorld {
  manager : Manager;
  bluetoothManager : Bluetooth.Manager;
  database : Storage.Database;
  audioIsRecording : bool;
  trace : list Event
}.

Definition set_manager (m : Manager) (w : World) : World :=
  mkWorld m (bluetoothManager w) (database w) (audioIsRecording w) (trace w).

Definition set_bluetoothManager (b : Bluetooth.Manager) (w : World) : World :=
  mkWorld (manager w) b (database w) (audioIsRecording w) (trace w).

Definition set_database (d : Storage.Database) (w : World) : World :=
  mkWorld (manager w) (bluetoothManager w) d (audioIsRecording w) (trace w).

Definition set_audioIsRecording (b : bool) (w : World) : World :=
  mkWorld (manager w) (bluetoothManager w) (database w) b (trace w).

Definition emit (e : Event) : M World unit :=
  modify (fun w => mkWorld (manager w) (bluetoothManager w) (database w) (audioIsRecording w)
                     (trace w ++ [e])).

Definition set_isEmergencyActive (b : bool) (w : World) : World :=
  let m := manager w in
  set_manager (mkManager (firebase m) (bluetooth m) (audio m) b (currentEmergencyId m)
                 (emergencyStartTime m) (retryAttempts m) (retryDelay m)) w.

Definition set_currentEmergencyId (i : option string) (w : World) : World :=
  let m := manager w in
  set_manager (mkManager (firebase m) (bluetooth m) (audio m) (isEmergencyActive m) i
                 (emergencyStartTime m) (retryAttempts m) (retryDelay m)) w.

Definition set_emergencyStartTime (t : option Z) (w : World) : World :=
  let m := manager w in
  set_manager (mkManager (firebase m) (bluetooth m) (audio m) (isEmergencyActive m)
                 (currentEmergencyId m) t (retryAttempts m) (retryDelay m)) w.

(** Answers of the platform and of the collaborators during one operation. *)
Record Env : Type := mkEnv {
  onLine : bool;                                   (* navigator.onLine *)
  dateNow : Z;                                     (* Date.now() *)
  generateEmergencyId : string;
  (* location tracker *)
  getCurrentLocation : completion (option Location);
  getAddressFromCoordinates : completion string;
  getLocationForEmergency : option Location;
  (* audio recorder *)
  startRecording : completion unit;
  stopRecording : completion (option Z);           (* the recording's duration, or null *)
  (* firebase manager *)
  saveEmergencyAlert : completion unit;
  sendEmergencyNotification : string -> string -> completion unit;
  sendEmergencyToAuthorities : completion unit;
  (* fetch: response.ok and response.status *)
  fetchNotifyAuthorities : completion (bool * string);
  (* storage manager, per call site *)
  env_getSetting : Storage.Env;
  env_getContacts : Storage.Env;
  env_saveEmergency : Storage.Env;
  env_saveAudioRecording : Storage.Env;
  (* bluetooth manager *)
  env_bluetooth : Bluetooth.Env
}.

Definition storage {A} (m : M Storage.Database A) : M World A :=
  zoom database set_database m.

Definition bluetooth_call {A} (m : M Bluetooth.Manager A) : M World A :=
  zoom bluetoothManager set_bluetoothManager m.

Definition TypeError : Error := mkError "Cannot read properties of null".

Definition getEmergencyLocation (env : Env) : M World (option Location) :=
  try_catch
    (location <- await (getCurrentLocation env) ;;
     match location with
     | Some l =>
         if onLine env then
           try_catch
             (a <- await (getAddressFromCoordinates env) ;;
              ret (Some (mkLocation (latitude l) (longitude l) (Some a))))
             (fun _ => ret (Some l))
         else ret (Some l)
     | None => throw (mkError "Location not available")
     end)
    (fun _ =>
       (* Return last known location if available *)
       ret (getLocationForEmergency env)).

Definition audio_startRecording (env : Env) : M World unit :=
  has <- gets (fun w => audio (manager w)) ;;
  if has then
    emit CallStartRecording ;;
    recording <- gets audioIsRecording ;;
    if recording then ret tt
    else await (startRecording env) ;; modify (set_audioIsRecording true)
  else throw TypeError.

Definition startEmergencyAudioRecording (env : Env) : M World (option AudioRecording) :=
  try_catch
    (audioEnabled <- storage (Storage.getSetting_audioRecording (env_getSetting env)) ;;
     match audioEnabled with
     | Some false => ret None
     | _ =>
         audio_startRecording env ;;
         (* Auto-stop recording after 2 minutes for emergency *)
         emit (CallSetTimeout 120000) ;;
         ret (Some (RecordingStarted (dateNow env) 120000))
     end)
    (fun error => ret (Some (RecordingFailed (message error)))).

Definition getTrustedContacts (env : Env) : M World (list Contact) :=
  try_catch
    (contacts <- storage (Storage.getContacts (env_getContacts env)) ;;
     ret contacts)
    (fun _ => ret []).

Definition executeEmergencyProcedures (env : Env) : M World EmergencyData :=
  location <- settled (getEmergencyLocation env) ;;
  audioRecording <- settled (startEmergencyAudioRecording env) ;;
  contacts <- settled (getTrustedContacts env) ;;
  id <- gets (fun w => currentEmergencyId (manager w)) ;;
  ret (mkEmergencyData
         (match location with Return v => v | Throw _ => None end)
         (match audioRecording with Return v => v | Throw _ => None end)
         (match contacts with Return v => v | Throw _ => [] end)
         (dateNow env)
         id).

(** [sendEmergencyAlerts]: the manager's state together with the [results]
    object that the three channel methods update in place. *)
Record Dispatch : Type := mkDispatch {
  world : World;
  results : AlertResults
}.

Definition in_world {A} (m : M World A) : M Dispatch A :=
  zoom world (fun w d => mkDispatch w (results d)) m.

Definition counters (c : Channel) (r : AlertResults) : ChannelCounters :=
  match c with
  | BluetoothChannel => res_bluetooth r
  | FirebaseChannel => res_firebase r
  | AuthoritiesChannel => res_authorities r
  end.

Definition set_counters (c : Channel) (k : ChannelCounters) (r : AlertResults) : AlertResults :=
  match c with
  | BluetoothChannel => mkResults k (res_firebase r) (res_authorities r) (totalSent r) (totalFailed r)
  | FirebaseChannel => mkResults (res_bluetooth r) k (res_authorities r) (totalSent r) (totalFailed r)
  | AuthoritiesChannel => mkResults (res_bluetooth r) (res_firebase r) k (totalSent r) (totalFailed r)
  end.

(** [results.<c>.sent++] *)
Definition sent_incr (c : Channel) : M Dispatch unit :=
  modify (fun d =>
    let k := counters c (results d) in
    mkDispatch (world d) (set_counters c (mkCounters (S (sent k)) (failed k) (errors k)) (results d))).

(** [results.<c>.failed++; results.<c>.errors.push(msg)] *)
Definition failed_incr (c : Channel) (msg : string) : M Dispatch unit :=
  modify (fun d =>
    let k := counters c (results d) in
    mkDispatch (world d)
      (set_counters c (mkCounters (sent k) (S (failed k)) (errors k ++ [msg])) (results d))).

Definition sendBluetoothAlerts (env : Env) (emergencyData : EmergencyData) : M Dispatch unit :=
  try_catch
    (let alertData :=
       Bluetooth.mkAlert "emergency" (ed_emergencyId emergencyData) (ed_location emergencyData)
         (ed_timestamp emergencyData) "Emergency alert from StopitHarassment user" in
     in_world (emit (CallBroadcastEmergency alertData) ;;
               bluetooth_call (Bluetooth.broadcastEmergency (env_bluetooth env) alertData)) ;;
     sent_incr BluetoothChannel)
    (fun error => failed_incr BluetoothChannel (message error)).

Definition sendFirebaseAlerts (env : Env) (emergencyData : EmergencyData) : M Dispatch unit :=
  try_catch
    (in_world (emit CallSaveEmergencyAlert ;; await (saveEmergencyAlert env)) ;;
     for_of (ed_contacts emergencyData) (fun contact =>
       try_catch
         (in_world (emit (CallSendEmergencyNotification (contact_id contact) "emergency") ;;
                    await (sendEmergencyNotification env (contact_id contact) "emergency")) ;;
          sent_incr FirebaseChannel)
         (fun error =>
            failed_incr FirebaseChannel
              (String.append (contact_email contact) (String.append ": " (message error))))))
    (fun error => failed_incr FirebaseChannel (message error)).

Definition notifyAuthorities (env : Env) (emergencyData : EmergencyData) : M Dispatch unit :=
  try_catch
    (fb <- in_world (gets (fun w => firebase (manager w))) ;;
     if fb then
       in_world (emit CallSendEmergencyToAuthorities ;; await (sendEmergencyToAuthorities env)) ;;
       sent_incr AuthoritiesChannel
     else
       response <- in_world (emit CallFetchNotifyAuthorities ;;
                             await (fetchNotifyAuthorities env)) ;;
       if fst response then sent_incr AuthoritiesChannel
       else throw (mkError (String.append "Authority notification failed: " (snd response))))
    (fun error => failed_incr AuthoritiesChannel (message error)).

Definition new_counters : ChannelCounters := mkCounters 0 0 [].

Definition new_results : AlertResults :=
  mkResults new_counters new_counters new_counters 0 0.

Definition has_contacts (emergencyData : EmergencyData) : bool :=
  Nat.ltb 0 (length (ed_contacts emergencyData)).

(** The guard in front of each [alertPromises.push]. *)
Definition attempted (env : Env) (m : Manager) (emergencyData : EmergencyData)
    (c : Channel) : bool :=
  match c with
  | BluetoothChannel => bluetooth m && has_contacts emergencyData
  | FirebaseChannel => firebase m && onLine env && has_contacts emergencyData
  | AuthoritiesChannel => onLine env
  end.

Definition channel_method (env : Env) (emergencyData : EmergencyData)
    (c : Channel) : M Dispatch unit :=
  match c with
  | BluetoothChannel => sendBluetoothAlerts env emergencyData
  | FirebaseChannel => sendFirebaseAlerts env emergencyData
  | AuthoritiesChannel => notifyAuthorities env emergencyData
  end.

(** One [if (...) alertPromises.push(...)], settled by [Promise.allSettled]. *)
Definition alertPromise (env : Env) (emergencyData : EmergencyData)
    (c : Channel) : M Dispatch unit :=
  m <- in_world (gets manager) ;;
  if attempted env m emergencyData c
  then settled (channel_method env emergencyData c) ;; ret tt
  else ret tt.

Definition sum_totals (d : Dispatch) : Dispatch :=
  let r := results d in
  mkDispatch (world d)
    (mkResults (res_bluetooth r) (res_firebase r) (res_authorities r)
       (sent (res_bluetooth r) + sent (res_firebase r) + sent (res_authorities r))
       (failed (res_bluetooth r) + failed (res_firebase r) + failed (res_authorities r))).

Definition sendEmergencyAlerts (env : Env) (emergencyData : EmergencyData)
    : M World AlertResults :=
  fun w =>
    let (c, d) :=
      (alertPromise env emergencyData BluetoothChannel ;;
       alertPromise env emergencyData FirebaseChannel ;;
       alertPromise env emergencyData AuthoritiesChannel ;;
       modify sum_totals ;;
       gets results) (mkDispatch w new_results) in
    (c, world d).

(** What [activateEmergency] hands back to its caller. *)
Record Summary : Type := mkSummary {
  sum_emergencyId : option string;
  sum_alertsSent : nat;
  sum_location : option Location;
  sum_recording : option AudioRecording
}.

Definition string_of (o : option string) : string :=
  match o with Some s => s | None => EmptyString end.

Definition number_of (o : option Z) : Z :=
  match o with Some z => z | None => 0%Z end.

Definition storage_saveEmergency (env : Env) (row : EmergencyRecord) : M World string :=
  emit (CallSaveEmergency row) ;;
  storage (Storage.saveEmergency (env_saveEmergency env) row).

(** The row [activateEmergency] passes to [saveEmergency]. *)
Definition activation_record (m : Manager) (emergencyData : EmergencyData)
    (alertResults : AlertResults) : EmergencyRecord :=
  mkRecord (string_of (currentEmergencyId m)) "manual" (Some emergencyData) (Some alertResults)
    (number_of (emergencyStartTime m)) (Some "active") None None None false EmptyString None.

(** The [try] block of [activateEmergency]. *)
Definition activation (env : Env) : M World (option Summary) :=
  modify (set_isEmergencyActive true) ;;
  modify (set_emergencyStartTime (Some (dateNow env))) ;;
  modify (set_currentEmergencyId (Some (generateEmergencyId env))) ;;
  (* Start all emergency procedures in parallel *)
  emergencyData <- executeEmergencyProcedures env ;;
  (* Send alerts to all channels *)
  alertResults <- sendEmergencyAlerts env emergencyData ;;
  (* Store emergency record *)
  m <- gets manager ;;
  storage_saveEmergency env (activation_record m emergencyData alertResults) ;;
  m' <- gets manager ;;
  ret (Some (mkSummary (currentEmergencyId m') (totalSent alertResults)
               (ed_location emergencyData) (ed_audioRecording emergencyData))).

Definition activateEmergency (env : Env) : M World (option Summary) :=
  active <- gets (fun w => isEmergencyActive (manager w)) ;;
  if active then
    (* console.warn('Emergency already active'); return; *)
    ret None
  else
    try_catch
      (activation env)
      (fun error =>
         modify (set_isEmergencyActive false) ;;
         throw error).

Definition cancellationData (env : Env) (m : Manager) : Bluetooth.Message :=
  Bluetooth.mkMessage "cancellation" (dateNow env) None
    (Bluetooth.CancellationPayload (currentEmergencyId m)).

Definition sendCancellationAlerts (env : Env) : M World unit :=
  try_catch
    (m <- gets manager ;;
     (* Send via Bluetooth *)
     (if bluetooth m then
        try_catch
          (emit (CallBluetoothSendMessage (cancellationData env m)) ;;
           bluetooth_call (Bluetooth.sendMessage (env_bluetooth env) (cancellationData env m)) ;;
           ret tt)
          (fun _ => ret tt)
      else ret tt) ;;
     (* Send via Firebase *)
     (if firebase m && onLine env then
        try_catch
          (contacts <- storage (Storage.getContacts (env_getContacts env)) ;;
           for_of contacts (fun contact =>
             emit (CallSendEmergencyNotification (contact_id contact) "cancellation") ;;
             await (sendEmergencyNotification env (contact_id contact) "cancellation")))
          (fun _ => ret tt)
      else ret tt))
    (fun _ => ret tt).

(** [if (this.currentEmergencyId)]: null and the empty string are falsy. *)
Definition truthy_id (o : option string) : bool :=
  match o with
  | Some s => negb (String.eqb s EmptyString)
  | None => false
  end.

(** The row [cancelEmergency] passes to [saveEmergency]. *)
Definition cancellation_record (env : Env) (m : Manager) : EmergencyRecord :=
  mkRecord (String.append (string_of (currentEmergencyId m)) "-cancelled") "cancellation"
    None None (dateNow env) (Some "cancelled") (currentEmergencyId m)
    (Some (dateNow env - number_of (emergencyStartTime m))%Z) None false EmptyString None.

Definition stop_and_save_recording (env : Env) : M World unit :=
  m <- gets manager ;;
  recording <- gets audioIsRecording ;;
  if audio m && recording then
    try_catch
      (emit CallStopRecording ;;
       modify (set_audioIsRecording false) ;;
       r <- await (stopRecording env) ;;
       match r with
       | Some duration =>
           (* Save the recording even though emergency was cancelled *)
           emit (CallSaveAudioRecording "emergency-cancelled") ;;
           storage (Storage.saveAudioRecording (env_saveAudioRecording env) duration
                      (currentEmergencyId m) "emergency-cancelled") ;;
           ret tt
       | None => ret tt
       end)
      (fun _ => ret tt)
  else ret tt.

Definition cancelEmergency (env : Env) : M World unit :=
  active <- gets (fun w => isEmergencyActive (manager w)) ;;
  if negb active then
    (* console.warn('No active emergency to cancel'); return; *)
    ret tt
  else
    try_catch
      ((* Stop audio recording if active *)
       stop_and_save_recording env ;;
       (* Update emergency record *)
       m <- gets manager ;;
       (if truthy_id (currentEmergencyId m) then
          try_catch
            (storage_saveEmergency env (cancellation_record env m) ;; ret tt)
            (fun _ => ret tt)
        else ret tt) ;;
       (* Send cancellation alerts *)
       sendCancellationAlerts env ;;
       modify (set_isEmergencyActive false) ;;
       modify (set_currentEmergencyId None) ;;
       modify (set_emergencyStartTime None))
      (fun error => throw error).

End Emergency.

(* ------------------------------------------------------------------ *)
(** ** Observations on traces and on stored rows *)

Definition is_journal_write (e : Emergency.Event) : bool :=
  match e with
  | Emergency.CallSaveEmergency _ => true
  | _ => false
  end.

(** A call that hands an alert to a channel. *)
Definition is_channel_send (e : Emergency.Event) : bool :=
  match e with
  | Emergency.CallBroadcastEmergency _
  | Emergency.CallBluetoothSendMessage _
  | Emergency.CallSaveEmergencyAlert
  | Emergency.CallSendEmergencyNotification _ _
  | Emergency.CallSendEmergencyToAuthorities
  | Emergency.CallFetchNotifyAuthorities => true
  | _ => false
  end.

(** The first call of each channel method. *)
Definition enters (c : Emergency.Channel) (e : Emergency.Event) : bool :=
  match c, e with
  | Emergency.BluetoothChannel, Emergency.CallBroadcastEmergency _ => true
  | Emergency.FirebaseChannel, Emergency.CallSaveEmergencyAlert => true
  | Emergency.AuthoritiesChannel, Emergency.CallSendEmergencyToAuthorities => true
  | Emergency.AuthoritiesChannel, Emergency.CallFetchNotifyAuthorities => true
  | _, _ => false
  end.

(** No channel send happens before the first journal write. *)
Fixpoint journal_first (tr : list Emergency.Event) : bool :=
  match tr with
  | [] => true
  | e :: rest =>
      if is_journal_write e then true
      else if is_channel_send e then false
      else journal_first rest
  end.

(** The delay of the oldest pending reconnect attempt, if there is one. *)
Definition pending_retry (s : Bluetooth.Manager) : option Z :=
  match Bluetooth.timers s with
  | (delay, Bluetooth.AttemptReconnect) :: _ => Some delay
  | _ => None
  end.

(** [n] reconnect attempts in a row that all fail, from [s] to [s']. *)
Inductive failed_attempts : nat -> Bluetooth.Manager -> Bluetooth.Manager -> Prop :=
| failed_none s : failed_attempts 0 s s
| failed_more n s s' env delay rest e s'' :
    failed_attempts n s s' ->
    Bluetooth.timers s' = (delay, Bluetooth.AttemptReconnect) :: rest ->
    Bluetooth.connect env (Bluetooth.set_timers rest s') = (Throw e, s'') ->
    failed_attempts (S n) s (snd (Bluetooth.fire_reconnect env s')).

(** [characteristic.writeValue] takes the message. *)
Definition accepted (env : Bluetooth.Env) (m : Bluetooth.Message) : bool :=
  match Bluetooth.writeValue env m with
  | Return _ => true
  | Throw _ => false
  end.

(** The link is up: [sendMessage] will try to write. *)
Definition link_up (s : Bluetooth.Manager) : bool :=
  Bluetooth.isConnected s && Bluetooth.characteristic s.

(** Two manager states that differ at most in the queue and in what was written. *)
Definition same_link (s s' : Bluetooth.Manager) : Prop :=
  Bluetooth.device s' = Bluetooth.device s /\
  Bluetooth.characteristic s' = Bluetooth.characteristic s /\
  Bluetooth.isConnected s' = Bluetooth.isConnected s /\
  Bluetooth.scanning s' = Bluetooth.scanning s /\
  Bluetooth.timers s' = Bluetooth.timers s.

(** Every message is in exactly one place: written, or waiting in the queue. *)
Definition holds (s : Bluetooth.Manager) : list Bluetooth.Message :=
  Bluetooth.written s ++ Bluetooth.messageQueue s.


Definition key_sorted (s : Storage.Store) : Prop :=
  StronglySorted (fun a b => String_as_OT.lt (rec_id a) (rec_id b)) s.

(* ------------------------------------------------------------------ *)
(** ** The specification's retry and pending rules, in its own words *)

Module Spec.

(** Exponential backoff with jitter, capped at a maximum interval. *)
Definition backoff (base cap jitter : Z) (attempts : nat) : Z :=
  Z.min cap (base * 2 ^ Z.of_nat attempts + jitter).

(** After a failed send that brought the counter to [attempts]: the time of
    the next retry while attempts remain, none once they are exhausted. *)
Definition nextRetryAt (maxAttempts : nat) (delay : nat -> Z) (now : Z)
    (attempts : nat) : option Z :=
  if Nat.ltb attempts maxAttempts then Some (now + delay attempts)%Z else None.


Section GetPending.

(** The stored rows carry no retry time; [retryAt] is any reading of one. *)
Variable retryAt : EmergencyRecord -> Emergency.Channel -> option Z.





End GetPending.

End Spec.

(* ------------------------------------------------------------------ *)
(** ** Relations between states *)

(** A method keeps a relation between the state it starts from and the
    state it leaves, whatever its completion. *)
Definition respects {W A : Type} (R : W -> W -> Prop) (m : M W A) : Prop :=
  forall w, R w (snd (m w)).

(** The trace only grows, and by calls that satisfy [P]. *)
Definition extends (P : Emergency.Event -> bool) (w w' : Emergency.World) : Prop :=
  exists evs, Emergency.trace w' = Emergency.trace w ++ evs /\ forallb P evs = true.

(** The rows of the emergencies store are the same. *)
Definition same_rows (w w' : Emergency.World) : Prop :=
  Storage.emergencies (Emergency.database w') = Storage.emergencies (Emergency.database w).

(** The manager's own fields are the same. *)
Definition same_manager (w w' : Emergency.World) : Prop :=
  Emergency.manager w' = Emergency.manager w.

(** The database but for the audio recordings. *)
Definition same_settings (w w' : Emergency.World) : Prop :=
  Storage.emergencies (Emergency.database w') = Storage.emergencies (Emergency.database w) /\
  Storage.contacts (Emergency.database w') = Storage.contacts (Emergency.database w) /\
  Storage.audioRecordingSetting (Emergency.database w') =
    Storage.audioRecordingSetting (Emergency.database w).

(** A relation between worlds, read on dispatch states. *)
Definition on_world (R : Emergency.World -> Emergency.World -> Prop)
    (d d' : Emergency.Dispatch) : Prop :=
  R (Emergency.world d) (Emergency.world d').

(** A relation on worlds that the steps of context gathering, dispatch and
    cancellation alerts keep: emitting a call that satisfies [P], changing
    the Bluetooth manager or the recorder, adding an audio row. *)
Class Frame (R : Emergency.World -> Emergency.World -> Prop)
    (P : Emergency.Event -> bool) : Prop := {
  frame_pre :: PreOrder R;
  frame_emit : forall e w, P e = true -> R w (snd (Emergency.emit e w));
  frame_bluetooth : forall b w, R w (Emergency.set_bluetoothManager b w);
  frame_recorder : forall b w, R w (Emergency.set_audioIsRecording b w);
  frame_audio_row : forall a w,
    R w (Emergency.set_database (Storage.add_audioRow a (Emergency.database w)) w)
}.

(* ------------------------------------------------------------------ *)
(** ** What context gathering resolves to *)

(** The calls of context gathering: the recorder and its stop timer. *)
Definition recorder_event (e : Emergency.Event) : bool :=
  match e with
  | Emergency.CallStartRecording | Emergency.CallSetTimeout _ => true
  | _ => false
  end.

(** What [getEmergencyLocation] resolves to. *)
Definition best_effort_location (env : Emergency.Env) : option Location :=
  match Emergency.getCurrentLocation env with
  | Return (Some l) =>
      if Emergency.onLine env then
        match Emergency.getAddressFromCoordinates env with
        | Return a => Some (mkLocation (latitude l) (longitude l) (Some a))
        | Throw _ => Some l
        end
      else Some l
  | _ => Emergency.getLocationForEmergency env
  end.

(** What [startEmergencyAudioRecording] resolves to: [null] when recording
    is switched off in the settings, a started marker when the recorder
    runs, a failure marker with the error's message otherwise. *)
Definition best_effort_recording (env : Emergency.Env) (w : Emergency.World)
    : option AudioRecording :=
  match
    match Storage.requestFault (Emergency.env_getSetting env) with
    | None => Storage.audioRecordingSetting (Emergency.database w)
    | Some _ => None
    end
  with
  | Some false => None
  | _ =>
      if Emergency.audio (Emergency.manager w) then
        if Emergency.audioIsRecording w then
          Some (RecordingStarted (Emergency.dateNow env) 120000)
        else
          match Emergency.startRecording env with
          | Return _ => Some (RecordingStarted (Emergency.dateNow env) 120000)
          | Throw e => Some (RecordingFailed (message e))
          end
      else Some (RecordingFailed (message Emergency.TypeError))
  end.

(** What [getTrustedContacts] resolves to. *)
Definition best_effort_contacts (env : Emergency.Env) (d : Storage.Database) : list Contact :=
  match Storage.requestFault (Emergency.env_getContacts env) with
  | None => Storage.contacts d
  | Some _ => []
  end.

(** The location provider fails: it throws or has no fix. *)
Definition location_fails (env : Emergency.Env) : Prop :=
  match Emergency.getCurrentLocation env with
  | Return (Some _) => False
  | _ => True
  end.

(** Recording is switched off in the settings. *)
Definition recording_disabled (env : Emergency.Env) (w : Emergency.World) : Prop :=
  Storage.requestFault (Emergency.env_getSetting env) = None /\
  Storage.audioRecordingSetting (Emergency.database w) = Some false.

(** The recorder cannot be started. *)
Definition recording_fails (env : Emergency.Env) (w : Emergency.World) : Prop :=
  Emergency.audio (Emergency.manager w) = false \/
  (Emergency.audioIsRecording w = false /\
   exists e, Emergency.startRecording env = Throw e).

(** The read of the contact store fails. *)
Definition contacts_fail (env : Emergency.Env) : Prop :=
  Storage.requestFault (Emergency.env_getContacts env) <> None.

(* ------------------------------------------------------------------ *)
(** ** What the channel methods record *)

(** The calls a channel method can make. *)
Definition channel_event (c : Emergency.Channel) (e : Emergency.Event) : bool :=
  match c, e with
  | Emergency.BluetoothChannel, Emergency.CallBroadcastEmergency _ => true
  | Emergency.FirebaseChannel, Emergency.CallSaveEmergencyAlert => true
  | Emergency.FirebaseChannel, Emergency.CallSendEmergencyNotification _ _ => true
  | Emergency.AuthoritiesChannel, Emergency.CallSendEmergencyToAuthorities => true
  | Emergency.AuthoritiesChannel, Emergency.CallFetchNotifyAuthorities => true
  | _, _ => false
  end.

(** One outcome counted into a channel's counters: [sent++] on a normal
    return, [failed++] and the message pushed on a throw. *)
Definition tally {A} (c : completion A) (k : ChannelCounters) : ChannelCounters :=
  match c with
  | Return _ => mkCounters (S (sent k)) (failed k) (errors k)
  | Throw e => mkCounters (sent k) (S (failed k)) (errors k ++ [message e])
  end.

(** The outcome of notifying one contact, with the e-mail put in front of
    the error message. *)
Definition notify_outcome (env : Emergency.Env) (contact : Contact) : completion unit :=
  match Emergency.sendEmergencyNotification env (contact_id contact) "emergency" with
  | Return _ => Return tt
  | Throw e =>
      Throw (mkError (String.append (contact_email contact) (String.append ": " (message e))))
  end.

Fixpoint notify_tally (env : Emergency.Env) (contacts : list Contact)
    (k : ChannelCounters) : ChannelCounters :=
  match contacts with
  | [] => k
  | contact :: rest => notify_tally env rest (tally (notify_outcome env contact) k)
  end.

Definition notify_events (contacts : list Contact) : list Emergency.Event :=
  map (fun contact => Emergency.CallSendEmergencyNotification (contact_id contact) "emergency")
    contacts.

(** The alert [sendBluetoothAlerts] broadcasts. *)
Definition alert_of (emergencyData : EmergencyData) : Bluetooth.AlertData :=
  Bluetooth.mkAlert "emergency" (ed_emergencyId emergencyData) (ed_location emergencyData)
    (ed_timestamp emergencyData) "Emergency alert from StopitHarassment user".

(** The outcome of the authorities channel: through Firebase when the
    handle is set, through [fetch] otherwise, where a response that is not
    ok counts as a failure. *)
Definition authorities_outcome (env : Emergency.Env) (firebase : bool) : completion unit :=
  if firebase then Emergency.sendEmergencyToAuthorities env
  else
    match Emergency.fetchNotifyAuthorities env with
    | Return (true, _) => Return tt
    | Return (false, status) =>
        Throw (mkError (String.append "Authority notification failed: " status))
    | Throw e => Throw e
    end.

(** What a channel method records for its channel, from fresh counters. *)
Definition channel_outcome (env : Emergency.Env) (emergencyData : EmergencyData)
    (w : Emergency.World) (c : Emergency.Channel) : ChannelCounters :=
  match c with
  | Emergency.BluetoothChannel =>
      tally (fst (Bluetooth.broadcastEmergency (Emergency.env_bluetooth env)
                    (alert_of emergencyData) (Emergency.bluetoothManager w)))
        Emergency.new_counters
  | Emergency.FirebaseChannel =>
      match Emergency.saveEmergencyAlert env with
      | Return _ => notify_tally env (ed_contacts emergencyData) Emergency.new_counters
      | Throw e => tally (@Throw unit e) Emergency.new_counters
      end
  | Emergency.AuthoritiesChannel =>
      tally (authorities_outcome env (Emergency.firebase (Emergency.manager w)))
        Emergency.new_counters
  end.

(** The calls a channel method makes. *)
Definition channel_calls (env : Emergency.Env) (emergencyData : EmergencyData)
    (w : Emergency.World) (c : Emergency.Channel) : list Emergency.Event :=
  match c with
  | Emergency.BluetoothChannel => [Emergency.CallBroadcastEmergency (alert_of emergencyData)]
  | Emergency.FirebaseChannel =>
      Emergency.CallSaveEmergencyAlert ::
      match Emergency.saveEmergencyAlert env with
      | Return _ => notify_events (ed_contacts emergencyData)
      | Throw _ => []
      end
  | Emergency.AuthoritiesChannel =>
      if Emergency.firebase (Emergency.manager w)
      then [Emergency.CallSendEmergencyToAuthorities]
      else [Emergency.CallFetchNotifyAuthorities]
  end.

Definition add_events (evs : list Emergency.Event) (w : Emergency.World) : Emergency.World :=
  Emergency.mkWorld (Emergency.manager w) (Emergency.bluetoothManager w) (Emergency.database w)
    (Emergency.audioIsRecording w) (Emergency.trace w ++ evs).

(** The calls of a channel when its guard holds, none otherwise. *)
Definition guarded_calls (env : Emergency.Env) (emergencyData : EmergencyData)
    (w : Emergency.World) (c : Emergency.Channel) : list Emergency.Event :=
  if Emergency.attempted env (Emergency.manager w) emergencyData c
  then channel_calls env emergencyData w c
  else [].

(** The counters of a channel when its guard holds, fresh ones otherwise. *)
Definition guarded_outcome (env : Emergency.Env) (emergencyData : EmergencyData)
    (w : Emergency.World) (c : Emergency.Channel) : ChannelCounters :=
  if Emergency.attempted env (Emergency.manager w) emergencyData c
  then channel_outcome env emergencyData w c
  else Emergency.new_counters.

(** The first call of channel [c] throws [err]. *)
Definition channel_throws (env : Emergency.Env) (emergencyData : EmergencyData)
    (w : Emergency.World) (c : Emergency.Channel) (err : Error) : Prop :=
  match c with
  | Emergency.BluetoothChannel =>
      fst (Bluetooth.broadcastEmergency (Emergency.env_bluetooth env)
             (alert_of emergencyData) (Emergency.bluetoothManager w)) = Throw err
  | Emergency.FirebaseChannel => Emergency.saveEmergencyAlert env = Throw err
  | Emergency.AuthoritiesChannel =>
      authorities_outcome env (Emergency.firebase (Emergency.manager w)) = Throw err
  end.

(** The same world with other values in [retryAttempts] and [retryDelay]. *)
Definition with_retry (attempts : nat) (delay : Z) (w : Emergency.World) : Emergency.World :=
  let m := Emergency.manager w in
  Emergency.set_manager
    (Emergency.mkManager (Emergency.firebase m) (Emergency.bluetooth m) (Emergency.audio m)
       (Emergency.isEmergencyActive m) (Emergency.currentEmergencyId m)
       (Emergency.emergencyStartTime m) attempts delay) w.

(** A timer set by the emergency manager. *)
Definition is_timer (e : Emergency.Event) : bool :=
  match e with
  | Emergency.CallSetTimeout _ => true
  | _ => false
  end.

(* ------------------------------------------------------------------ *)
(** ** Activation and cancellation, step by step *)

(** The first three assignments of [activateEmergency]'s [try] block. *)
Definition armed (env : Emergency.Env) (w : Emergency.World) : Emergency.World :=
  Emergency.set_currentEmergencyId (Some (Emergency.generateEmergencyId env))
    (Emergency.set_emergencyStartTime (Some (Emergency.dateNow env))
       (Emergency.set_isEmergencyActive true w)).

(** The last three assignments of [cancelEmergency]'s [try] block. *)
Definition disarmed (w : Emergency.World) : Emergency.World :=
  Emergency.set_emergencyStartTime None
    (Emergency.set_currentEmergencyId None
       (Emergency.set_isEmergencyActive false w)).

(** The guarded, caught write of the cancellation row. *)
Definition journal_cancellation (env : Emergency.Env) (w : Emergency.World)
    : Emergency.World :=
  if Emergency.truthy_id (Emergency.currentEmergencyId (Emergency.manager w))
  then snd (Emergency.storage_saveEmergency env
              (Emergency.cancellation_record env (Emergency.manager w)) w)
  else w.

(** The calls [cancelEmergency] can make: none of them dispatches the
    emergency alert. *)
Definition cancellation_event (e : Emergency.Event) : bool :=
  match e with
  | Emergency.CallStopRecording => true
  | Emergency.CallSaveAudioRecording _ => true
  | Emergency.CallSaveEmergency row =>
      match rec_status row with
      | Some status => String.eqb status "cancelled"
      | None => false
      end
  | Emergency.CallBluetoothSendMessage m => String.eqb (Bluetooth.msg_type m) "cancellation"
  | Emergency.CallSendEmergencyNotification _ type => String.eqb type "cancellation"
  | _ => false
  end.

(* ------------------------------------------------------------------ *)
(** ** Sample inputs *)

Module Sample.

(** A link on which every write is accepted and every connection attempt
    is refused by the GATT server. *)
Definition unreachable : Bluetooth.Env :=
  Bluetooth.mkEnv 1700000000000 "lq2x9k0abc" (fun _ => Return tt)
    (Bluetooth.GattFails (mkError "GATT Server is disconnected")) None (Return tt).

(** A link that connects and on which writes fail. *)
Definition noisy : Bluetooth.Env :=
  Bluetooth.mkEnv 1700000000500 "lq2x9k0abd"
    (fun _ => Throw (mkError "GATT operation failed"))
    Bluetooth.Connects None (Return tt).

(** A link that connects and on which writes are accepted. *)
Definition healthy : Bluetooth.Env :=
  Bluetooth.mkEnv 1700000001000 "lq2x9k0abe" (fun _ => Return tt)
    Bluetooth.Connects None (Return tt).

Definition test_message : Bluetooth.Message :=
  Bluetooth.mkMessage "test" 1700000000000 (Some "lq2x9k0abc") Bluetooth.TestPayload.

Definition ack_message : Bluetooth.Message :=
  Bluetooth.mkMessage "ack" 1700000000200 (Some "lq2x9k0abf") (Bluetooth.AckPayload "lq2x9k0abc").

Definition alice : Contact := mkContact "c-17" "Alice" "alice@example.org".

Definition bob : Contact := mkContact "c-18" "Bob" "bob@example.org".

Definition here : Location := mkLocation 52520008 13404954 None.

Definition storage_ok : Storage.Env :=
  Storage.mkEnv "lq2x9k0xyz" 1700000000000 "2023-11-14T22:13:20.000Z" None.

Definition storage_full : Storage.Env :=
  Storage.mkEnv "lq2x9k0xyz" 1700000000000 "2023-11-14T22:13:20.000Z"
    (Some (mkError "QuotaExceededError")).

(** Online, every collaborator answers. *)
Definition calm : Emergency.Env :=
  Emergency.mkEnv true 1700000000000 "emer_lq2x9k0_abcde"
    (Return (Some here)) (Return "Alexanderplatz, Berlin") (Some here)
    (Return tt) (Return (Some 42000%Z))
    (Return tt) (fun _ _ => Return tt) (Return tt) (Return (true, "200"))
    storage_ok storage_ok storage_ok storage_ok healthy.

(** Offline; geolocation, microphone and the contact read all fail. *)
Definition stormy : Emergency.Env :=
  Emergency.mkEnv false 1700000000000 "emer_lq2x9k0_abcde"
    (Throw (mkError "User denied Geolocation")) (Throw (mkError "offline")) None
    (Throw (mkError "Permission denied")) (Return None)
    (Throw (mkError "unavailable")) (fun _ _ => Throw (mkError "unavailable"))
    (Throw (mkError "unavailable")) (Throw (mkError "Failed to fetch"))
    storage_ok storage_full storage_ok storage_ok unreachable.

(** As [calm], but the write of the emergency row is refused. *)
Definition calm_but_full : Emergency.Env :=
  Emergency.mkEnv true 1700000000000 "emer_lq2x9k0_abcde"
    (Return (Some here)) (Return "Alexanderplatz, Berlin") (Some here)
    (Return tt) (Return (Some 42000%Z))
    (Return tt) (fun _ _ => Return tt) (Return tt) (Return (true, "200"))
    storage_ok storage_ok storage_full storage_ok healthy.

(** Offline, with the contacts readable: only Bluetooth passes its guard. *)
Definition offline : Emergency.Env :=
  Emergency.mkEnv false 1700000000000 "emer_lq2x9k0_abcde"
    (Return (Some here)) (Throw (mkError "offline")) (Some here)
    (Return tt) (Return (Some 42000%Z))
    (Throw (mkError "unavailable")) (fun _ _ => Throw (mkError "unavailable"))
    (Throw (mkError "unavailable")) (Throw (mkError "Failed to fetch"))
    storage_ok storage_ok storage_ok storage_ok healthy.

(** A manager after [init], nothing stored but two contacts. *)
Definition idle : Emergency.World :=
  Emergency.mkWorld (Emergency.new true true true) Bluetooth.new
    (Storage.mkDatabase [] [alice; bob] None []) false [].

(** The world a successful activation leaves. *)
Definition alarmed : Emergency.World := snd (Emergency.activateEmergency calm idle).

(** As [calm], but geolocation fails while an earlier fix is remembered. *)
Definition no_fix : Emergency.Env :=
  Emergency.mkEnv true 1700000000000 "emer_lq2x9k0_abcde"
    (Throw (mkError "Timeout expired")) (Return "Alexanderplatz, Berlin") (Some here)
    (Return tt) (Return (Some 42000%Z))
    (Return tt) (fun _ _ => Return tt) (Return tt) (Return (true, "200"))
    storage_ok storage_ok storage_ok storage_ok healthy.

(** What the activation [alarmed] comes from gathered, counted and stored. *)
Definition gathered : EmergencyData :=
  mkEmergencyData
    (Some (mkLocation 52520008 13404954 (Some "Alexanderplatz, Berlin")))
    (Some (RecordingStarted 1700000000000 120000))
    [alice; bob] 1700000000000 (Some "emer_lq2x9k0_abcde").

Definition alarm_results : AlertResults :=
  mkResults (mkCounters 1 0 []) (mkCounters 2 0 []) (mkCounters 1 0 []) 4 0.

Definition alarm_row : EmergencyRecord :=
  mkRecord "emer_lq2x9k0_abcde" "manual" (Some gathered) (Some alarm_results)
    1700000000000 (Some "active") None None None false "2023-11-14T22:13:20.000Z" None.




(** The context of an emergency with two contacts. *)
Definition data : EmergencyData :=
  mkEmergencyData (Some here) None [alice; bob] 1700000000000 (Some "emer_lq2x9k0_abcde").

End Sample.

(* ------------------------------------------------------------------ *)
(** ** The Bluetooth queue *)

Section BluetoothQueue.

Import Bluetooth.

Local Ltac run_js :=
  unfold sendMessage, processMessageQueue, connect, requestDevice, disconnect,
    attemptReconnect, onDisconnected, fire_reconnect,
    try_catch, bind, ret, throw, await, gets, modify in *; simpl in *.

(** One [sendMessage]: the message is written, or it joins the queue. *)
Lemma sendMessage_outcome (env : Env) (m : Message) (s : Manager) :
  sendMessage env m s =
    if link_up s then
      match writeValue env m with
      | Return _ => (Return true, accept_write m s)
      | Throw e => (Throw e, queue_push m s)
      end
    else (Return false, queue_push m s).
Proof.
  unfold link_up. run_js.
  destruct (isConnected s), (characteristic s); simpl; try reflexivity.
  destruct (writeValue env m); reflexivity.
Qed.

Lemma link_up_accept_write (m : Message) (s : Manager) :
  link_up (accept_write m s) = link_up s.
Proof. reflexivity. Qed.

Lemma link_up_queue_push (m : Message) (s : Manager) :
  link_up (queue_push m s) = link_up s.
Proof. reflexivity. Qed.

(** The body of the [forEach] in [processMessageQueue]. *)
Lemma resend_outcome (env : Env) (m : Message) (s : Manager) :
  try_catch (sendMessage env m ;; ret tt) (fun _ => ret tt) s =
    (Return tt,
     if link_up s then (if accepted env m then accept_write m s else queue_push m s)
     else queue_push m s).
Proof.
  unfold try_catch, bind, ret. rewrite sendMessage_outcome. unfold accepted.
  destruct (link_up s); [destruct (writeValue env m) |]; reflexivity.
Qed.

Lemma resend_all_up (env : Env) (q : list Message) :
  forall s, link_up s = true ->
    for_of q (fun m => try_catch (sendMessage env m ;; ret tt) (fun _ => ret tt)) s =
      (Return tt,
       mkManager (device s) (characteristic s) (isConnected s)
         (messageQueue s ++ filter (fun m => negb (accepted env m)) q)
         (scanning s) (timers s)
         (written s ++ filter (accepted env) q)).
Proof.
  induction q as [| m q IH]; intros s Hup; simpl.
  - unfold ret. rewrite !app_nil_r. destruct s; reflexivity.
  - unfold bind at 1. rewrite resend_outcome, Hup.
    destruct (accepted env m); simpl.
    + rewrite IH by (rewrite link_up_accept_write; assumption).
      simpl. rewrite <- app_assoc. reflexivity.
    + rewrite IH by (rewrite link_up_queue_push; assumption).
      simpl. rewrite <- app_assoc. reflexivity.
Qed.

Lemma resend_all_down (env : Env) (q : list Message) :
  forall s, link_up s = false ->
    for_of q (fun m => try_catch (sendMessage env m ;; ret tt) (fun _ => ret tt)) s =
      (Return tt, set_messageQueue (messageQueue s ++ q) s).
Proof.
  induction q as [| m q IH]; intros s Hdown; simpl.
  - unfold ret, set_messageQueue. rewrite app_nil_r. destruct s; reflexivity.
  - unfold bind at 1. rewrite resend_outcome, Hdown.
    rewrite IH by (rewrite link_up_queue_push; assumption).
    unfold set_messageQueue, queue_push; simpl. rewrite <- app_assoc. reflexivity.
Qed.

(** With the link up, [processMessageQueue] offers every queued message to
    the characteristic: the accepted ones are written, the others are queued
    again, in their order. *)
Lemma processMessageQueue_up (env : Env) (s : Manager) :
  link_up s = true ->
  processMessageQueue env s =
    (Return tt,
     mkManager (device s) (characteristic s) (isConnected s)
       (filter (fun m => negb (accepted env m)) (messageQueue s))
       (scanning s) (timers s)
       (written s ++ filter (accepted env) (messageQueue s))).
Proof.
  intros Hup. unfold processMessageQueue.
  destruct (messageQueue s) as [| m q] eqn:Hq.
  - simpl. rewrite app_nil_r. destruct s; simpl in *; subst; reflexivity.
  - rewrite resend_all_up by exact Hup. reflexivity.
Qed.

Lemma processMessageQueue_down (env : Env) (s : Manager) :
  link_up s = false ->
  processMessageQueue env s = (Return tt, s).
Proof.
  intros Hdown. unfold processMessageQueue.
  destruct (messageQueue s) as [| m q] eqn:Hq; [reflexivity |].
  rewrite resend_all_down by exact Hdown.
  simpl. unfold set_messageQueue; simpl. rewrite <- Hq. destruct s; reflexivity.
Qed.

Lemma filter_split {A} (f : A -> bool) (l : list A) :
  Permutation (filter f l ++ filter (fun x => negb (f x)) l) l.
Proof.
  induction l as [| x l IH]; simpl; [constructor |].
  destruct (f x); simpl.
  - constructor; exact IH.
  - apply Permutation_sym, Permutation_cons_app, Permutation_sym, IH.
Qed.

Lemma processMessageQueue_holds (env : Env) (s : Manager) :
  Permutation (holds (snd (processMessageQueue env s))) (holds s) /\
  same_link s (snd (processMessageQueue env s)).
Proof.
  destruct (link_up s) eqn:Hup.
  - rewrite processMessageQueue_up by exact Hup. unfold holds, same_link; simpl.
    split; [| repeat split].
    rewrite <- app_assoc. apply Permutation_app_head, filter_split.
  - rewrite processMessageQueue_down by exact Hup. split; [reflexivity | repeat split].
Qed.

Lemma sendMessage_holds (env : Env) (m : Message) (s : Manager) :
  Permutation (holds (snd (sendMessage env m s))) (holds s ++ [m]) /\
  same_link s (snd (sendMessage env m s)).
Proof.
  rewrite sendMessage_outcome. unfold holds, same_link.
  destruct (link_up s); [destruct (writeValue env m) |]; simpl;
    (split; [| repeat split]).
  - rewrite <- !app_assoc. apply Permutation_app_head, Permutation_app_comm.
  - rewrite app_assoc. reflexivity.
  - rewrite app_assoc. reflexivity.
Qed.

Lemma connect_holds (env : Env) (s : Manager) :
  Permutation (holds (snd (connect env s))) (holds s) /\
  timers (snd (connect env s)) = timers s.
Proof.
  unfold connect, requestDevice, try_catch, bind, gets, modify, ret, throw.
  destruct (device s) eqn:Hd, (connectAnswer env) eqn:Ha; simpl;
    try (split; reflexivity);
    match goal with
    | |- context [processMessageQueue env ?t] =>
        destruct (processMessageQueue_holds env t) as [Hp (_ & _ & _ & _ & Ht)];
        destruct (processMessageQueue env t) as [[[] | ?] ?]; simpl in *;
        split; solve [ exact Hp | exact Ht ]
    end.
Qed.

Lemma disconnect_holds (env : Env) (s : Manager) :
  holds (snd (disconnect env s)) = holds s /\
  timers (snd (disconnect env s)) = timers s.
Proof.
  unfold disconnect, try_catch, bind, gets, modify, ret, await.
  destruct (device s); [destruct (gattDisconnect env) |]; simpl; split; reflexivity.
Qed.

Lemma attemptReconnect_holds (env : Env) (s : Manager) :
  Permutation (holds (snd (attemptReconnect env s))) (holds s).
Proof.
  unfold attemptReconnect, try_catch, bind, ret, modify.
  destruct (connect_holds env s) as [Hp _].
  destruct (connect env s) as [[b | e] s']; simpl in *; exact Hp.
Qed.

(** A failed reconnect attempt sets the next one 10 seconds later; a
    successful one sets none. *)
Lemma attemptReconnect_timers (env : Env) (s : Manager) :
  timers (snd (attemptReconnect env s)) =
    match fst (connect env s) with
    | Return _ => timers s
    | Throw _ => timers s ++ [(10000%Z, AttemptReconnect)]
    end.
Proof.
  unfold attemptReconnect, try_catch, bind, ret, modify.
  destruct (connect_holds env s) as [_ Ht].
  destruct (connect env s) as [[b | e] s']; simpl in *; rewrite Ht; reflexivity.
Qed.

Lemma fire_reconnect_holds (env : Env) (s : Manager) :
  Permutation (holds (snd (fire_reconnect env s))) (holds s).
Proof.
  unfold fire_reconnect.
  destruct (timers s) as [| [d []] rest]; try reflexivity.
  apply (attemptReconnect_holds env (set_timers rest s)).
Qed.

Lemma step_holds (o : Op) (s : Manager) :
  Permutation (holds (step o s)) (holds s ++ given [o]).
Proof.
  destruct o; simpl; rewrite ?app_nil_r.
  - apply sendMessage_holds.
  - apply processMessageQueue_holds.
  - apply connect_holds.
  - rewrite (proj1 (disconnect_holds env s)). reflexivity.
  - reflexivity.
  - apply fire_reconnect_holds.
Qed.

Lemma given_app (ops ops' : list Op) : given (ops ++ ops') = given ops ++ given ops'.
Proof.
  induction ops as [| [] ops IH]; simpl; rewrite ?IH; reflexivity.
Qed.

Lemma run_holds (ops : list Op) :
  forall s, Permutation (holds (run ops s)) (holds s ++ given ops).
Proof.
  induction ops as [| o ops IH]; intros s; simpl.
  - rewrite app_nil_r. reflexivity.
  - change (run (o :: ops) s) with (run ops (step o s)).
    rewrite IH, (step_holds o s), <- app_assoc, <- given_app.
    reflexivity.
Qed.

Lemma connect_success (env : Env) (s : Manager) :
  connectAnswer env = Connects ->
  connect env s =
    (Return true,
     mkManager true true true
       (filter (fun m => negb (accepted env m)) (messageQueue s))
       (scanning s) (timers s)
       (written s ++ filter (accepted env) (messageQueue s))).
Proof.
  intros Ha.
  unfold connect, requestDevice, try_catch, bind, gets, modify, ret, throw.
  rewrite Ha.
  destruct (device s) eqn:Hd; simpl;
    rewrite processMessageQueue_up by reflexivity; simpl; rewrite ?Hd; reflexivity.
Qed.

Lemma run_never_drops (ops : list Op) (m : Message) :
  In m (given ops) ->
  In m (written (run ops new)) \/ In m (messageQueue (run ops new)).
Proof.
  intros Hin. apply in_app_or.
  apply (Permutation_in m (Permutation_sym (run_holds ops new))).
  simpl. exact Hin.
Qed.

(** C10. The Bluetooth channel never silently drops an outbound message.
    (1) [sendMessage] either writes the message to the characteristic (link
    up and the write accepted) or appends it to [messageQueue] (link down,
    or the write failed), and touches no other message. (2) A successful
    [connect] runs [processMessageQueue] with the link up, which offers
    every queued message to the characteristic: the accepted ones are
    written, the refused ones are queued again. (3) Through any sequence of
    sends, queue runs, connects, disconnects, link losses and reconnect
    timers, starting from a fresh manager, the written messages and the
    queued ones are together a rearrangement of the messages given to
    [sendMessage]; so each of them is written or still queued. The
    statements do not depend on the order in which writes complete. *)
Theorem bluetooth_never_drops_a_message :
  (forall env m s,
     (link_up s = true /\ accepted env m = true /\
      written (snd (sendMessage env m s)) = written s ++ [m] /\
      messageQueue (snd (sendMessage env m s)) = messageQueue s) \/
     ((link_up s = false \/ accepted env m = false) /\
      written (snd (sendMessage env m s)) = written s /\
      messageQueue (snd (sendMessage env m s)) = messageQueue s ++ [m])) /\
  (forall env s,
     connectAnswer env = Connects ->
     Permutation (written (snd (connect env s)) ++ messageQueue (snd (connect env s)))
       (written s ++ messageQueue s) /\
     forall m, In m (messageQueue s) ->
       if accepted env m then In m (written (snd (connect env s)))
       else In m (messageQueue (snd (connect env s)))) /\
  (forall ops,
     Permutation (written (run ops new) ++ messageQueue (run ops new)) (given ops) /\
     forall m, In m (given ops) ->
       In m (written (run ops new)) \/ In m (messageQueue (run ops new))).
Proof.
  split; [| split].
  - intros env m s. rewrite sendMessage_outcome. unfold accepted.
    destruct (link_up s); [destruct (writeValue env m) |]; simpl; auto 10.
  - intros env s Ha. split; [apply connect_holds |].
    intros m Hm. rewrite (connect_success env s Ha). simpl.
    destruct (accepted env m) eqn:Hacc.
    + apply in_or_app. right. apply filter_In. split; assumption.
    + apply filter_In. split; [assumption |]. rewrite Hacc. reflexivity.
  - intros ops. split.
    + exact (run_holds ops new).
    + intros m. apply run_never_drops.
Qed.

(** Three messages sent over a link that is down, then up with failing
    writes, then up with working writes: all are accounted for. *)
Lemma bluetooth_never_drops_witness :
  let ops := [OpSend Sample.healthy Sample.test_message;
              OpConnect Sample.noisy;
              OpSend Sample.noisy Sample.ack_message;
              OpLinkLost;
              OpTimer Sample.healthy] in
  In Sample.ack_message (given ops) /\
  (In Sample.ack_message (written (run ops new)) \/
   In Sample.ack_message (messageQueue (run ops new))).
Proof.
  intros ops. assert (Hin : In Sample.ack_message (given ops)) by (simpl; auto).
  split; [exact Hin |].
  exact (proj2 (proj2 (proj2 bluetooth_never_drops_a_message) ops) Sample.ack_message Hin).
Defined.

Lemma onDisconnected_timers (s : Manager) :
  timers (snd (onDisconnected s)) = timers s ++ [(3000%Z, AttemptReconnect)].
Proof. reflexivity. Qed.

(** After link loss, however many reconnect attempts fail in a row, exactly
    one further attempt is pending: 3 s after the loss, 10 s after a failure. *)
Lemma reconnect_schedule (n : nat) (s s' : Manager) :
  timers s = [] ->
  failed_attempts n (snd (onDisconnected s)) s' ->
  timers s' = [((if Nat.eqb n 0 then 3000 else 10000)%Z, AttemptReconnect)].
Proof.
  intros Hs H. remember (snd (onDisconnected s)) as s0 eqn:Hs0.
  induction H as [s0 | n s0 s1 env delay rest e s2 H IH Ht Hc].
  - subst s0. rewrite onDisconnected_timers, Hs. reflexivity.
  - specialize (IH Hs0). rewrite IH in Ht. injection Ht as _ Hrest. subst rest.
    unfold fire_reconnect. rewrite IH.
    rewrite attemptReconnect_timers, Hc. reflexivity.
Qed.

End BluetoothQueue.

(* ------------------------------------------------------------------ *)
(** ** The emergencies store *)

Section StoreFacts.

Import Storage.

Lemma key_lt_spec (a b : string) : key_lt a b = true <-> String_as_OT.lt a b.
Proof.
  unfold key_lt. rewrite <- String_as_OT.cmp_lt.
  destruct (String_as_OT.cmp a b); split; congruence.
Qed.

Lemma key_gt (a b : string) :
  String.eqb a b = false -> key_lt b a = false -> String_as_OT.lt a b.
Proof.
  intros Hne Hlt. apply String_as_OT.cmp_lt.
  unfold key_lt in Hlt.
  destruct (String_as_OT.cmp b a) eqn:Hc; try discriminate.
  - apply String_as_OT.cmp_eq in Hc. subst. rewrite String.eqb_refl in Hne. discriminate.
  - rewrite String_as_OT.cmp_antisym, Hc. reflexivity.
Qed.

Lemma store_insert_In (r x : EmergencyRecord) (s : Store) :
  In x (store_insert r s) -> x = r \/ In x s.
Proof.
  induction s as [| r' rest IH]; simpl.
  - intros [H | []]; auto.
  - destruct (String.eqb (rec_id r') (rec_id r)); [| destruct (key_lt (rec_id r) (rec_id r'))];
      simpl; intuition auto.
Qed.

(** [add] and [put] keep the rows in key order. *)
Lemma store_insert_sorted (r : EmergencyRecord) (s : Store) :
  key_sorted s -> key_sorted (store_insert r s).
Proof.
  unfold key_sorted. induction s as [| r' rest IH]; simpl; intros Hs.
  - repeat constructor.
  - apply StronglySorted_inv in Hs. destruct Hs as [Hrest Hall].
    destruct (String.eqb (rec_id r') (rec_id r)) eqn:Heq.
    + apply String.eqb_eq in Heq. constructor; [exact Hrest |].
      rewrite <- Heq. exact Hall.
    + destruct (key_lt (rec_id r) (rec_id r')) eqn:Hlt.
      * apply key_lt_spec in Hlt. constructor; [constructor; assumption |].
        constructor; [exact Hlt |].
        eapply Forall_impl; [| exact Hall].
        intros x Hx. eapply String_as_OT.lt_trans; eassumption.
      * constructor; [apply IH; exact Hrest |].
        apply Forall_forall. intros x Hx.
        apply store_insert_In in Hx. destruct Hx as [-> | Hx].
        -- apply key_gt; assumption.
        -- rewrite Forall_forall in Hall. apply Hall, Hx.
Qed.




(** A boolean is no key: the lookup is refused. *)
Lemma index_getAll_boolean (keyPath : EmergencyRecord -> KeyValue) (b : bool) (s : Store) :
  index_getAll keyPath (KBoolean b) s = Throw DataError.
Proof. reflexivity. Qed.



End StoreFacts.

(* ------------------------------------------------------------------ *)
(** ** Relations kept by composed methods *)

Section Respects.

Context {W : Type} (R : W -> W -> Prop) {R_pre : PreOrder R}.

Lemma respects_ret {A} (a : A) : respects R (ret a).
Proof. intros w. simpl. reflexivity. Qed.

Lemma respects_throw {A} (e : Error) : respects R (@throw W A e).
Proof. intros w. simpl. reflexivity. Qed.

Lemma respects_await {A} (c : completion A) : respects R (await c).
Proof. intros w. simpl. reflexivity. Qed.

Lemma respects_gets {A} (f : W -> A) : respects R (gets f).
Proof. intros w. simpl. reflexivity. Qed.

Lemma respects_bind {A B} (m : M W A) (k : A -> M W B) :
  respects R m -> (forall a, respects R (k a)) -> respects R (bind m k).
Proof.
  intros Hm Hk w. unfold bind. specialize (Hm w).
  destruct (m w) as [[a | e] w1]; simpl in *; [| exact Hm].
  transitivity w1; [exact Hm | apply Hk].
Qed.

Lemma respects_try_catch {A} (m : M W A) (h : Error -> M W A) :
  respects R m -> (forall e, respects R (h e)) -> respects R (try_catch m h).
Proof.
  intros Hm Hh w. unfold try_catch. specialize (Hm w).
  destruct (m w) as [[a | e] w1]; simpl in *; [exact Hm |].
  transitivity w1; [exact Hm | apply Hh].
Qed.

Lemma respects_settled {A} (m : M W A) : respects R m -> respects R (settled m).
Proof.
  intros Hm w. unfold settled. specialize (Hm w).
  destruct (m w) as [c w1]; exact Hm.
Qed.

Lemma respects_for_of {A} (xs : list A) (body : A -> M W unit) :
  (forall x, respects R (body x)) -> respects R (for_of xs body).
Proof.
  intros Hb. induction xs as [| x xs IH]; simpl.
  - apply respects_ret.
  - apply respects_bind; [apply Hb | intros _; exact IH].
Qed.

End Respects.

(* ------------------------------------------------------------------ *)
(** ** Storage calls, one by one *)

Section StorageCalls.

Import Storage.

Lemma getContacts_eq (env : Env) (d : Database) :
  getContacts env d =
    (Return (match requestFault env with None => contacts d | Some _ => [] end), d).
Proof.
  unfold getContacts, request, try_catch, gets, ret, throw.
  destruct (requestFault env); reflexivity.
Qed.

Lemma getSetting_audioRecording_eq (env : Env) (d : Database) :
  getSetting_audioRecording env d =
    (Return (match requestFault env with None => audioRecordingSetting d | Some _ => None end), d).
Proof.
  unfold getSetting_audioRecording, request, try_catch, gets, ret, throw.
  destruct (requestFault env); reflexivity.
Qed.

Lemma saveAudioRecording_eq (env : Env) (duration : Z) (i : option string) (t : string)
    (d : Database) :
  saveAudioRecording env duration i t d =
    match requestFault env with
    | Some e => (Throw e, d)
    | None => (Return (generateId env), add_audioRow (mkAudioRow (generateId env) i duration t) d)
    end.
Proof.
  unfold saveAudioRecording, request, try_catch, bind, modify, ret, throw.
  destruct (requestFault env); reflexivity.
Qed.

(** [saveEmergency] adds the stamped row under a key that was free, or
    throws and leaves the store as it was. *)
Lemma saveEmergency_eq (env : Env) (row : EmergencyRecord) (d : Database) :
  saveEmergency env row d =
    match requestFault env with
    | Some e => (Throw e, d)
    | None =>
        match store_get (rec_id (stamp env row)) (emergencies d) with
        | Some _ => (Throw ConstraintError, d)
        | None =>
            (Return (rec_id (stamp env row)),
             set_emergencies (store_insert (stamp env row) (emergencies d)) d)
        end
    end.
Proof.
  unfold saveEmergency, add, request, try_catch, bind, ret, throw.
  destruct (requestFault env); [reflexivity |].
  destruct (store_get (rec_id (stamp env row)) (emergencies d)); reflexivity.
Qed.

(** Inserting a row under a free key leaves every stored row where it was. *)
Lemma store_get_insert_other (r : EmergencyRecord) (k : string) (s : Store) :
  k <> rec_id r -> store_get k (store_insert r s) = store_get k s.
Proof.
  intros Hk. induction s as [| r' rest IH]; simpl.
  - destruct (String.eqb_spec (rec_id r) k); [congruence | reflexivity].
  - destruct (String.eqb_spec (rec_id r') (rec_id r)) as [Heq | Hne]; simpl.
    + destruct (String.eqb_spec (rec_id r) k); [congruence |].
      destruct (String.eqb_spec (rec_id r') k); [congruence | reflexivity].
    + destruct (key_lt (rec_id r) (rec_id r')); simpl.
      * destruct (String.eqb_spec (rec_id r) k); [congruence | reflexivity].
      * rewrite IH. reflexivity.
Qed.

Lemma store_get_insert_same (r : EmergencyRecord) (s : Store) :
  store_get (rec_id r) (store_insert r s) = Some r.
Proof.
  induction s as [| r' rest IH]; simpl.
  - rewrite String.eqb_refl. reflexivity.
  - destruct (String.eqb_spec (rec_id r') (rec_id r)) as [Heq | Hne]; simpl.
    + rewrite String.eqb_refl. reflexivity.
    + destruct (key_lt (rec_id r) (rec_id r')); simpl.
      * rewrite String.eqb_refl. reflexivity.
      * destruct (String.eqb_spec (rec_id r') (rec_id r)); [contradiction | exact IH].
Qed.

Lemma store_get_key (k : string) (s : Store) (r : EmergencyRecord) :
  store_get k s = Some r -> rec_id r = k.
Proof.
  induction s as [| r' rest IH]; simpl; [discriminate |].
  destruct (String.eqb_spec (rec_id r') k); [| exact IH].
  intros H. injection H as <-. assumption.
Qed.

(** Every write to the emergencies store keeps it in key order. *)
Lemma saveEmergency_keeps_order (env : Env) (row : EmergencyRecord) (d : Database) :
  key_sorted (emergencies d) ->
  key_sorted (emergencies (snd (saveEmergency env row d))).
Proof.
  intros Hs. rewrite saveEmergency_eq.
  destruct (requestFault env); [exact Hs |].
  destruct (store_get (rec_id (stamp env row)) (emergencies d)); [exact Hs |].
  apply store_insert_sorted, Hs.
Qed.

Lemma markEmergencyAsSynced_keeps_order (env : Env) (k : string) (d : Database) :
  key_sorted (emergencies d) ->
  key_sorted (emergencies (snd (markEmergencyAsSynced env k d))).
Proof.
  intros Hs. unfold markEmergencyAsSynced, put, request, try_catch, bind, gets, modify, ret, throw.
  destruct (requestFault env); [exact Hs |].
  cbn [fst snd]. destruct (store_get k (emergencies d)) as [e |]; [| exact Hs].
  cbn [fst snd emergencies set_emergencies].
  apply store_insert_sorted, Hs.
Qed.

End StorageCalls.

(* ------------------------------------------------------------------ *)
(** ** Frames *)

Section Frames.

Import Emergency.

Lemma set_database_same (w : World) : set_database (database w) w = w.
Proof. destruct w; reflexivity. Qed.

Lemma extends_frame (P : Event -> bool) : Frame (extends P) P.
Proof.
  split.
  - split.
    + intros w. exists []. rewrite app_nil_r. split; reflexivity.
    + intros w1 w2 w3 [e1 [H1 P1]] [e2 [H2 P2]]. exists (e1 ++ e2).
      rewrite H2, H1, app_assoc, forallb_app, P1, P2. split; reflexivity.
  - intros e w He. exists [e]. simpl. rewrite He. split; reflexivity.
  - intros b w. exists []. simpl. rewrite app_nil_r. split; reflexivity.
  - intros b w. exists []. simpl. rewrite app_nil_r. split; reflexivity.
  - intros a w. exists []. simpl. rewrite app_nil_r. split; reflexivity.
Qed.

Lemma same_rows_frame : Frame same_rows (fun _ => true).
Proof.
  split; [split |..]; unfold same_rows.
  - intros w. reflexivity.
  - intros w1 w2 w3 H1 H2. congruence.
  - intros e w _. reflexivity.
  - intros b w. reflexivity.
  - intros b w. reflexivity.
  - intros a w. reflexivity.
Qed.

Lemma same_manager_frame : Frame same_manager (fun _ => true).
Proof.
  split; [split |..]; unfold same_manager.
  - intros w. reflexivity.
  - intros w1 w2 w3 H1 H2. congruence.
  - intros e w _. reflexivity.
  - intros b w. reflexivity.
  - intros b w. reflexivity.
  - intros a w. reflexivity.
Qed.

Lemma same_settings_frame : Frame same_settings (fun _ => true).
Proof.
  split; [split |..]; unfold same_settings.
  - intros w. repeat split.
  - intros w1 w2 w3 (A1 & B1 & C1) (A2 & B2 & C2). repeat split; congruence.
  - intros e w _. repeat split.
  - intros b w. repeat split.
  - intros b w. repeat split.
  - intros a w. repeat split.
Qed.

Lemma on_world_pre (R : World -> World -> Prop) :
  PreOrder R -> PreOrder (on_world R).
Proof.
  intros HR. split.
  - intros d. unfold on_world. reflexivity.
  - intros d1 d2 d3 H1 H2. unfold on_world in *. etransitivity; eassumption.
Qed.

End Frames.

#[local] Existing Instance extends_frame.
#[local] Existing Instance same_rows_frame.
#[local] Existing Instance same_manager_frame.
#[local] Existing Instance same_settings_frame.
#[local] Existing Instance on_world_pre.

Create HintDb frame.

Ltac respects_step :=
  lazymatch goal with
  | |- PreOrder _ => typeclasses eauto
  | |- respects _ (bind _ _) => apply respects_bind
  | |- respects _ (try_catch _ _) => apply respects_try_catch
  | |- forall _, respects _ _ => intros ?
  | |- respects _ (ret _) => apply respects_ret
  | |- respects _ (throw _) => apply respects_throw
  | |- respects _ (await _) => apply respects_await
  | |- respects _ (gets _) => apply respects_gets
  | |- respects _ (settled _) => apply respects_settled
  | |- respects _ (for_of _ _) => apply respects_for_of
  | |- respects _ (match ?x with _ => _ end) => destruct x
  end.

(* ------------------------------------------------------------------ *)
(** ** Context gathering and dispatch keep every frame *)

Section FramedMethods.

Import Emergency.

Context (R : World -> World -> Prop) (P : Event -> bool) {F : Frame R P}.

#[local] Instance frame_preorder : PreOrder R := @frame_pre R P F.

Lemma emit_respects (e : Event) : P e = true -> respects R (emit e).
Proof. intros He w. apply frame_emit, He. Qed.

Lemma bluetooth_call_respects {A} (m : M Bluetooth.Manager A) :
  respects R (bluetooth_call m).
Proof.
  intros w. unfold bluetooth_call, zoom.
  destruct (m (bluetoothManager w)) as [c b]. simpl. apply frame_bluetooth.
Qed.

Lemma recorder_respects (b : bool) : respects R (modify (set_audioIsRecording b)).
Proof. intros w. simpl. apply frame_recorder. Qed.

Lemma getContacts_respects (env : Storage.Env) :
  respects R (storage (Storage.getContacts env)).
Proof.
  intros w. unfold storage, zoom. rewrite getContacts_eq. simpl.
  rewrite set_database_same. reflexivity.
Qed.

Lemma getSetting_respects (env : Storage.Env) :
  respects R (storage (Storage.getSetting_audioRecording env)).
Proof.
  intros w. unfold storage, zoom. rewrite getSetting_audioRecording_eq. simpl.
  rewrite set_database_same. reflexivity.
Qed.

Lemma saveAudioRecording_respects (env : Storage.Env) (duration : Z)
    (i : option string) (t : string) :
  respects R (storage (Storage.saveAudioRecording env duration i t)).
Proof.
  intros w. unfold storage, zoom. rewrite saveAudioRecording_eq.
  destruct (Storage.requestFault env); simpl.
  - rewrite set_database_same. reflexivity.
  - apply frame_audio_row.
Qed.

Hint Resolve emit_respects bluetooth_call_respects recorder_respects
  getContacts_respects getSetting_respects saveAudioRecording_respects : frame.

Ltac framed := repeat first [ respects_step | solve [ auto with frame ] ].

Lemma getEmergencyLocation_respects (env : Env) :
  respects R (getEmergencyLocation env).
Proof. unfold getEmergencyLocation. framed. Qed.

Lemma audio_startRecording_respects (env : Env) :
  P CallStartRecording = true ->
  respects R (audio_startRecording env).
Proof. intros H1. unfold audio_startRecording. framed. Qed.

Lemma startEmergencyAudioRecording_respects (env : Env) :
  (forall e, recorder_event e = true -> P e = true) ->
  respects R (startEmergencyAudioRecording env).
Proof.
  intros HP. unfold startEmergencyAudioRecording.
  assert (H1 := HP CallStartRecording eq_refl).
  assert (H2 := HP (CallSetTimeout 120000) eq_refl).
  pose proof (audio_startRecording_respects env H1).
  framed.
Qed.

Lemma getTrustedContacts_respects (env : Env) :
  respects R (getTrustedContacts env).
Proof. unfold getTrustedContacts. framed. Qed.

Lemma executeEmergencyProcedures_respects (env : Env) :
  (forall e, recorder_event e = true -> P e = true) ->
  respects R (executeEmergencyProcedures env).
Proof.
  intros HP. unfold executeEmergencyProcedures.
  pose proof (getEmergencyLocation_respects env).
  pose proof (startEmergencyAudioRecording_respects env HP).
  pose proof (getTrustedContacts_respects env).
  framed.
Qed.

Lemma in_world_respects {A} (m : M World A) :
  respects R m -> respects (on_world R) (in_world m).
Proof.
  intros Hm d. unfold in_world, zoom, on_world. specialize (Hm (world d)).
  destruct (m (world d)) as [c w']. exact Hm.
Qed.

Lemma sent_incr_respects (c : Channel) : respects (on_world R) (sent_incr c).
Proof. intros d. unfold on_world. simpl. reflexivity. Qed.

Lemma failed_incr_respects (c : Channel) (msg : string) :
  respects (on_world R) (failed_incr c msg).
Proof. intros d. unfold on_world. simpl. reflexivity. Qed.

Hint Resolve sent_incr_respects failed_incr_respects : frame.

Ltac framed_dispatch :=
  repeat first
    [ respects_step
    | apply in_world_respects
    | solve [ auto with frame ] ].

Lemma channel_method_respects (env : Env) (emergencyData : EmergencyData) (c : Channel) :
  (forall e, channel_event c e = true -> P e = true) ->
  respects (on_world R) (channel_method env emergencyData c).
Proof.
  intros HP. destruct c; simpl.
  - unfold sendBluetoothAlerts.
    assert (H1 := fun a => HP (CallBroadcastEmergency a) eq_refl).
    framed_dispatch.
  - unfold sendFirebaseAlerts.
    assert (H1 := HP CallSaveEmergencyAlert eq_refl).
    assert (H2 := fun i t => HP (CallSendEmergencyNotification i t) eq_refl).
    framed_dispatch.
  - unfold notifyAuthorities.
    assert (H1 := HP CallSendEmergencyToAuthorities eq_refl).
    assert (H2 := HP CallFetchNotifyAuthorities eq_refl).
    framed_dispatch.
Qed.

(** One guarded channel: nothing happens unless the guard holds. *)
Lemma alertPromise_framed (env : Env) (emergencyData : EmergencyData) (c : Channel)
    (d : Dispatch) :
  (attempted env (manager (world d)) emergencyData c = true ->
   forall e, channel_event c e = true -> P e = true) ->
  on_world R d (snd (alertPromise env emergencyData c d)).
Proof.
  intros HP. unfold alertPromise, bind, in_world, zoom, gets, settled, ret. simpl.
  destruct (attempted env (manager (world d)) emergencyData c) eqn:Ha.
  - replace (mkDispatch (world d) (results d)) with d by (destruct d; reflexivity).
    pose proof (channel_method_respects env emergencyData c (HP eq_refl) d) as H.
    destruct (channel_method env emergencyData c d) as [r d']. exact H.
  - simpl. unfold on_world. simpl. reflexivity.
Qed.

Lemma stop_and_save_recording_respects (env : Env) :
  P CallStopRecording = true ->
  (forall t, P (CallSaveAudioRecording t) = true) ->
  respects R (stop_and_save_recording env).
Proof. intros H1 H2. unfold stop_and_save_recording. framed. Qed.

Lemma sendCancellationAlerts_respects (env : Env) :
  (forall m, P (CallBluetoothSendMessage (cancellationData env m)) = true) ->
  (forall i, P (CallSendEmergencyNotification i "cancellation") = true) ->
  respects R (sendCancellationAlerts env).
Proof. intros H1 H2. unfold sendCancellationAlerts. framed. Qed.

End FramedMethods.

(* ------------------------------------------------------------------ *)
(** ** The three channel methods, one by one *)

Section ChannelMethods.

Import Emergency.

Local Ltac run_js :=
  unfold in_world, emit, sent_incr, failed_incr, bluetooth_call, storage;
  unfold try_catch, bind, ret, throw, await, gets, modify, settled, zoom;
  simpl.

Lemma sendBluetoothAlerts_eq (env : Env) (emergencyData : EmergencyData) (d : Dispatch) :
  sendBluetoothAlerts env emergencyData d =
    (Return tt,
     let r := Bluetooth.broadcastEmergency (env_bluetooth env) (alert_of emergencyData)
                (bluetoothManager (world d)) in
     mkDispatch
       (set_bluetoothManager (snd r)
          (add_events [CallBroadcastEmergency (alert_of emergencyData)] (world d)))
       (set_counters BluetoothChannel (tally (fst r) (res_bluetooth (results d))) (results d))).
Proof.
  unfold sendBluetoothAlerts. fold (alert_of emergencyData). run_js.
  destruct (Bluetooth.broadcastEmergency (env_bluetooth env) (alert_of emergencyData)
              (bluetoothManager (world d))) as [[[] | e] b]; reflexivity.
Qed.

Lemma notify_loop_eq (env : Env) (contacts : list Contact) :
  forall d,
    for_of contacts (fun contact =>
      try_catch
        (in_world (emit (CallSendEmergencyNotification (contact_id contact) "emergency") ;;
                   await (sendEmergencyNotification env (contact_id contact) "emergency")) ;;
         sent_incr FirebaseChannel)
        (fun error =>
           failed_incr FirebaseChannel
             (String.append (contact_email contact) (String.append ": " (message error))))) d =
    (Return tt,
     mkDispatch (add_events (notify_events contacts) (world d))
       (set_counters FirebaseChannel (notify_tally env contacts (res_firebase (results d)))
          (results d))).
Proof.
  induction contacts as [| contact rest IH]; intros d.
  - simpl. unfold ret, add_events. rewrite app_nil_r.
    destruct d as [[] []]; reflexivity.
  - simpl for_of. unfold bind at 1.
    match goal with
    | |- match ?body d with _ => _ end = _ =>
        assert (Hbody : body d =
          (Return tt,
           mkDispatch
             (add_events [CallSendEmergencyNotification (contact_id contact) "emergency"]
                (world d))
             (set_counters FirebaseChannel
                (tally (notify_outcome env contact) (res_firebase (results d))) (results d))))
    end.
    { unfold notify_outcome. run_js.
      destruct (sendEmergencyNotification env (contact_id contact) "emergency") as [[] | e];
        reflexivity. }
    rewrite Hbody, IH. simpl. unfold add_events; simpl. rewrite <- app_assoc. reflexivity.
Qed.

Lemma sendFirebaseAlerts_eq (env : Env) (emergencyData : EmergencyData) (d : Dispatch) :
  sendFirebaseAlerts env emergencyData d =
    (Return tt,
     mkDispatch
       (add_events (channel_calls env emergencyData (world d) FirebaseChannel) (world d))
       (set_counters FirebaseChannel
          (match saveEmergencyAlert env with
           | Return _ => notify_tally env (ed_contacts emergencyData) (res_firebase (results d))
           | Throw e => tally (@Throw unit e) (res_firebase (results d))
           end)
          (results d))).
Proof.
  unfold sendFirebaseAlerts, channel_calls.
  unfold try_catch at 1. unfold bind at 1.
  assert (Hfirst :
    in_world (emit CallSaveEmergencyAlert ;; await (saveEmergencyAlert env)) d =
      (saveEmergencyAlert env,
       mkDispatch (add_events [CallSaveEmergencyAlert] (world d)) (results d))).
  { run_js. destruct (saveEmergencyAlert env); reflexivity. }
  rewrite Hfirst. destruct (saveEmergencyAlert env) as [[] | e].
  - rewrite notify_loop_eq. simpl. unfold add_events; simpl. rewrite <- app_assoc. reflexivity.
  - reflexivity.
Qed.

Lemma notifyAuthorities_eq (env : Env) (emergencyData : EmergencyData) (d : Dispatch) :
  notifyAuthorities env emergencyData d =
    (Return tt,
     mkDispatch
       (add_events (channel_calls env emergencyData (world d) AuthoritiesChannel) (world d))
       (set_counters AuthoritiesChannel
          (tally (authorities_outcome env (firebase (manager (world d))))
             (res_authorities (results d)))
          (results d))).
Proof.
  unfold notifyAuthorities, channel_calls, authorities_outcome. run_js.
  destruct (firebase (manager (world d))); simpl.
  - destruct (sendEmergencyToAuthorities env) as [[] | e]; reflexivity.
  - destruct (fetchNotifyAuthorities env) as [[[] status] | e]; reflexivity.
Qed.

Lemma alertPromise_eq (env : Env) (emergencyData : EmergencyData) (c : Channel)
    (d : Dispatch) :
  alertPromise env emergencyData c d =
    (Return tt,
     if attempted env (manager (world d)) emergencyData c
     then snd (channel_method env emergencyData c d)
     else d).
Proof.
  unfold alertPromise. run_js.
  replace (mkDispatch (world d) (results d)) with d by (destruct d; reflexivity).
  destruct (attempted env (manager (world d)) emergencyData c); [| reflexivity].
  destruct (channel_method env emergencyData c d) as [r d']. reflexivity.
Qed.

Lemma channel_method_eq (env : Env) (emergencyData : EmergencyData) (c : Channel)
    (d : Dispatch) :
  channel_method env emergencyData c d =
    match c with
    | BluetoothChannel => sendBluetoothAlerts env emergencyData d
    | FirebaseChannel => sendFirebaseAlerts env emergencyData d
    | AuthoritiesChannel => notifyAuthorities env emergencyData d
    end.
Proof. destruct c; reflexivity. Qed.

(** [sendEmergencyAlerts], read off: it returns; each channel's counters
    are those of its own outcome when its guard holds and fresh otherwise;
    the totals are the sums; the calls are those of the guarded channels in
    the order Bluetooth, Firebase, authorities; the manager, the database and
    the recorder are untouched. *)
Lemma sendEmergencyAlerts_eq (env : Env) (emergencyData : EmergencyData) (w : World) :
  exists a w',
    sendEmergencyAlerts env emergencyData w = (Return a, w') /\
    (forall c, counters c a = guarded_outcome env emergencyData w c) /\
    totalSent a = sent (res_bluetooth a) + sent (res_firebase a) + sent (res_authorities a) /\
    totalFailed a =
      failed (res_bluetooth a) + failed (res_firebase a) + failed (res_authorities a) /\
    trace w' = trace w ++ guarded_calls env emergencyData w BluetoothChannel
                       ++ guarded_calls env emergencyData w FirebaseChannel
                       ++ guarded_calls env emergencyData w AuthoritiesChannel /\
    manager w' = manager w /\ database w' = database w /\
    audioIsRecording w' = audioIsRecording w.
Proof.
  unfold sendEmergencyAlerts.
  unfold bind at 1. rewrite alertPromise_eq.
  unfold bind at 1. rewrite alertPromise_eq.
  unfold bind at 1. rewrite alertPromise_eq.
  unfold bind, modify, gets. cbv beta iota.
  rewrite !channel_method_eq.
  rewrite sendBluetoothAlerts_eq, sendFirebaseAlerts_eq, notifyAuthorities_eq.
  unfold guarded_calls, guarded_outcome, channel_outcome.
  cbn [world results snd fst manager].
  destruct (attempted env (manager w) emergencyData BluetoothChannel) eqn:HB;
    cbn [world results snd fst manager set_bluetoothManager add_events];
    rewrite ?HB;
    (destruct (attempted env (manager w) emergencyData FirebaseChannel) eqn:HF;
     cbn [world results snd fst manager set_bluetoothManager add_events];
     rewrite ?HF;
     (destruct (attempted env (manager w) emergencyData AuthoritiesChannel) eqn:HA;
      cbn [world results snd fst manager set_bluetoothManager add_events];
      rewrite ?HA;
      eexists; eexists; (split; [reflexivity |]);
      (split; [intros []; simpl in *; rewrite ?HB, ?HF, ?HA;
               try destruct (saveEmergencyAlert env); reflexivity |]);
      simpl; rewrite ?app_nil_r, <- ?app_assoc; repeat split; reflexivity)).
Qed.

End ChannelMethods.

(* ------------------------------------------------------------------ *)
(** ** Dispatch *)

Section DispatchFacts.

Import Emergency.

Lemma notify_events_channel (c : Channel) (contacts : list Contact) :
  forallb (fun e => negb (channel_event c e)) (notify_events contacts) =
    match c with FirebaseChannel => Nat.eqb (length contacts) 0 | _ => true end.
Proof.
  induction contacts as [| x rest IH]; simpl.
  - destruct c; reflexivity.
  - rewrite IH. destruct c; reflexivity.
Qed.

Lemma channel_calls_enter (env : Env) (emergencyData : EmergencyData) (w : World)
    (c : Channel) :
  existsb (enters c) (channel_calls env emergencyData w c) = true.
Proof.
  destruct c; simpl; try reflexivity.
  destruct (firebase (manager w)); reflexivity.
Qed.

Lemma channel_calls_other (env : Env) (emergencyData : EmergencyData) (w : World)
    (c c' : Channel) :
  c <> c' ->
  forallb (fun e => negb (channel_event c e)) (channel_calls env emergencyData w c') = true.
Proof.
  intros Hne. unfold channel_calls.
  destruct c, c'; try congruence; try reflexivity;
    try (destruct (firebase (manager w)); reflexivity);
    destruct (saveEmergencyAlert env); try reflexivity;
    match goal with
    | |- forallb ?f (?x :: ?l) = true => change (f x && forallb f l = true)
    end;
    rewrite notify_events_channel; reflexivity.
Qed.

Lemma guarded_calls_other (env : Env) (emergencyData : EmergencyData) (w : World)
    (c c' : Channel) :
  c <> c' \/ attempted env (manager w) emergencyData c' = false ->
  forallb (fun e => negb (channel_event c e)) (guarded_calls env emergencyData w c') = true.
Proof.
  unfold guarded_calls. intros [Hne | Hskip].
  - destruct (attempted env (manager w) emergencyData c'); [| reflexivity].
    apply channel_calls_other, Hne.
  - rewrite Hskip. reflexivity.
Qed.

Lemma tally_counts {A} (c : completion A) (k : ChannelCounters) :
  sent (tally c k) + failed (tally c k) = S (sent k + failed k).
Proof. destruct c; simpl; lia. Qed.

Lemma notify_tally_counts (env : Env) (contacts : list Contact) :
  forall k,
    sent (notify_tally env contacts k) + failed (notify_tally env contacts k) =
      sent k + failed k + length contacts.
Proof.
  induction contacts as [| x rest IH]; intros k; simpl.
  - lia.
  - rewrite IH, tally_counts. lia.
Qed.

(** A channel that is attempted leaves at least one outcome in its counters. *)
Lemma channel_outcome_recorded (env : Env) (emergencyData : EmergencyData) (w : World)
    (c : Channel) :
  attempted env (manager w) emergencyData c = true ->
  1 <= sent (channel_outcome env emergencyData w c)
       + failed (channel_outcome env emergencyData w c).
Proof.
  intros Ha. destruct c; simpl.
  - rewrite tally_counts. lia.
  - destruct (saveEmergencyAlert env).
    + rewrite notify_tally_counts. simpl in Ha.
      apply andb_prop in Ha. destruct Ha as [_ Hc]. unfold has_contacts in Hc.
      apply Nat.ltb_lt in Hc. lia.
    + simpl. lia.
  - rewrite tally_counts. lia.
Qed.

(** C3, as the code has it. [sendEmergencyAlerts] is given no set of
    channels: it starts each of its three channel methods exactly when the
    guard in front of it holds (Bluetooth: the handle is set and there is a
    contact; Firebase: the handle is set, the browser is online and there is
    a contact; authorities: the browser is online). The guards read no
    channel outcome. A channel whose guard holds is entered and leaves at
    least one outcome in its own counters, which hold the outcome of that
    channel's own calls whatever the other channels did; a channel whose
    guard fails makes no call and keeps fresh counters. *)
Theorem dispatch_attempts_the_guarded_channels :
  forall (env : Env) (emergencyData : EmergencyData) (w : World),
  exists a w' evs,
    sendEmergencyAlerts env emergencyData w = (Return a, w') /\
    trace w' = trace w ++ evs /\
    forall c,
      counters c a = guarded_outcome env emergencyData w c /\
      (forall env', onLine env' = onLine env ->
         attempted env' (manager w) emergencyData c =
         attempted env (manager w) emergencyData c) /\
      (attempted env (manager w) emergencyData c = true ->
         existsb (enters c) evs = true /\
         counters c a = channel_outcome env emergencyData w c /\
         1 <= sent (counters c a) + failed (counters c a)) /\
      (attempted env (manager w) emergencyData c = false ->
         forallb (fun e => negb (channel_event c e)) evs = true /\
         counters c a = new_counters).
Proof.
  intros env emergencyData w.
  destruct (sendEmergencyAlerts_eq env emergencyData w)
    as (a & w' & Heq & Hk & _ & _ & Htr & _).
  exists a, w'. eexists. split; [exact Heq |]. split; [exact Htr |].
  intros c. split; [apply Hk |]. split; [| split].
  - intros env' Hon. destruct c; simpl; rewrite ?Hon; reflexivity.
  - intros Ha. rewrite Hk. unfold guarded_outcome. rewrite Ha.
    split; [| split; [reflexivity | apply channel_outcome_recorded, Ha]].
    rewrite !existsb_app.
    assert (Hc : existsb (enters c) (guarded_calls env emergencyData w c) = true).
    { unfold guarded_calls. rewrite Ha. apply channel_calls_enter. }
    destruct c; rewrite Hc; rewrite ?orb_true_r; reflexivity.
  - intros Ha. rewrite Hk. unfold guarded_outcome. rewrite Ha.
    split; [| reflexivity].
    rewrite !forallb_app.
    rewrite !guarded_calls_other; [reflexivity | | |];
      destruct c; solve [ right; exact Ha | left; discriminate ].
Qed.

(** Offline and with two contacts, only the Bluetooth channel is entered:
    the Firebase and the authorities channels are skipped. *)
Lemma dispatch_skips_channels_counterexample :
  let r := sendEmergencyAlerts Sample.offline Sample.data Sample.idle in
  existsb (enters BluetoothChannel) (trace (snd r)) = true /\
  existsb (enters FirebaseChannel) (trace (snd r)) = false /\
  existsb (enters AuthoritiesChannel) (trace (snd r)) = false /\
  fst r = Return (mkResults (mkCounters 1 0 []) new_counters new_counters 1 0).
Proof. vm_compute. repeat split; reflexivity. Qed.

(** C4. [sendEmergencyAlerts] never throws: for every context, every state
    and every combination of channel outcomes it returns a results object
    whose [totalSent] and [totalFailed] are the sums of the three channels'
    [sent] and [failed] counters, each channel's counters being those of its
    own outcome (fresh when the channel was not attempted). *)
Theorem dispatch_never_throws :
  forall (env : Env) (emergencyData : EmergencyData) (w : World),
  exists a w',
    sendEmergencyAlerts env emergencyData w = (Return a, w') /\
    totalSent a = sent (res_bluetooth a) + sent (res_firebase a) + sent (res_authorities a) /\
    totalFailed a =
      failed (res_bluetooth a) + failed (res_firebase a) + failed (res_authorities a) /\
    forall c, counters c a = guarded_outcome env emergencyData w c.
Proof.
  intros env emergencyData w.
  destruct (sendEmergencyAlerts_eq env emergencyData w)
    as (a & w' & Heq & Hk & Hs & Hf & _).
  exists a, w'. auto.
Qed.

End DispatchFacts.

(* ------------------------------------------------------------------ *)
(** ** Context gathering *)

Section ContextGathering.

Import Emergency.

Local Ltac run_js :=
  unfold audio_startRecording, in_world, emit, bluetooth_call, storage;
  unfold try_catch, bind, ret, throw, await, gets, modify, settled, zoom;
  simpl.

Lemma getEmergencyLocation_eq (env : Env) (w : World) :
  getEmergencyLocation env w = (Return (best_effort_location env), w).
Proof.
  unfold getEmergencyLocation, best_effort_location. run_js.
  destruct (getCurrentLocation env) as [[l |] | e]; try reflexivity.
  destruct (onLine env); [| reflexivity].
  destruct (getAddressFromCoordinates env); reflexivity.
Qed.

Lemma startEmergencyAudioRecording_value (env : Env) (w : World) :
  fst (startEmergencyAudioRecording env w) = Return (best_effort_recording env w).
Proof.
  unfold startEmergencyAudioRecording, best_effort_recording. run_js.
  rewrite getSetting_audioRecording_eq. simpl.
  destruct (Storage.requestFault (env_getSetting env));
    [| destruct (Storage.audioRecordingSetting (database w)) as [[] |]];
    simpl; try reflexivity;
    (destruct (audio (manager w)); simpl; [| reflexivity];
     destruct (audioIsRecording w); simpl; [reflexivity |];
     destruct (startRecording env) as [[] | ?]; reflexivity).
Qed.

Lemma getTrustedContacts_eq (env : Env) (w : World) :
  getTrustedContacts env w = (Return (best_effort_contacts env (database w)), w).
Proof.
  unfold getTrustedContacts, best_effort_contacts. run_js.
  rewrite getContacts_eq. simpl. rewrite set_database_same. reflexivity.
Qed.

(** [executeEmergencyProcedures] always returns the context, whatever the
    collaborators answer; it changes neither the manager nor the stored
    rows, contacts and settings, and calls only the recorder. *)
Lemma executeEmergencyProcedures_eq (env : Env) (w : World) :
  exists w',
    executeEmergencyProcedures env w =
      (Return (mkEmergencyData (best_effort_location env) (best_effort_recording env w)
                 (best_effort_contacts env (database w)) (dateNow env)
                 (currentEmergencyId (manager w))),
       w') /\
    same_manager w w' /\ same_settings w w' /\ extends recorder_event w w'.
Proof.
  pose proof (startEmergencyAudioRecording_value env w) as Hv.
  pose proof (startEmergencyAudioRecording_respects same_manager (fun _ => true) env
                (fun _ _ => eq_refl) w) as Hm.
  pose proof (startEmergencyAudioRecording_respects same_settings (fun _ => true) env
                (fun _ _ => eq_refl) w) as Hs.
  pose proof (startEmergencyAudioRecording_respects (extends recorder_event) recorder_event env
                (fun _ H => H) w) as Ht.
  unfold executeEmergencyProcedures, bind, settled, gets, ret.
  rewrite getEmergencyLocation_eq.
  destruct (startEmergencyAudioRecording env w) as [c w1]. simpl in *. subst c.
  rewrite getTrustedContacts_eq.
  exists w1. split; [| auto].
  unfold same_manager in Hm. destruct Hs as (_ & Hc & _).
  unfold best_effort_contacts. rewrite Hm, Hc. reflexivity.
Qed.

End ContextGathering.

(* ------------------------------------------------------------------ *)
(** ** Activation *)

Section Activation.

Import Emergency.

Lemma storage_saveEmergency_eq (env : Env) (row : EmergencyRecord) (w : World) :
  storage_saveEmergency env row w =
    (fst (Storage.saveEmergency (env_saveEmergency env) row (database w)),
     set_database (snd (Storage.saveEmergency (env_saveEmergency env) row (database w)))
       (add_events [CallSaveEmergency row] w)).
Proof.
  unfold storage_saveEmergency, storage, emit, bind, modify, zoom. simpl.
  destruct (Storage.saveEmergency (env_saveEmergency env) row (database w)) as [[i | e] d'];
    reflexivity.
Qed.

(** The context an activation gathers. *)
Lemma activation_context (env : Env) (w : World) :
  exists w2,
    executeEmergencyProcedures env (armed env w) =
      (Return (mkEmergencyData (best_effort_location env)
                 (best_effort_recording env (armed env w))
                 (best_effort_contacts env (database w)) (dateNow env)
                 (Some (generateEmergencyId env))),
       w2) /\
    same_manager (armed env w) w2 /\ same_settings (armed env w) w2 /\
    extends recorder_event (armed env w) w2.
Proof. exact (executeEmergencyProcedures_eq env (armed env w)). Qed.

(** [activation], step by step: the context is gathered, the alerts are
    dispatched, and only then the row is handed to [saveEmergency]; the
    completion of that write is the completion of the block. *)
Lemma activation_eq (env : Env) (w : World) :
  exists d a w2 w3,
    executeEmergencyProcedures env (armed env w) = (Return d, w2) /\
    sendEmergencyAlerts env d w2 = (Return a, w3) /\
    activation env w =
      match storage_saveEmergency env (activation_record (manager (armed env w)) d a) w3 with
      | (Return _, w4) =>
          (Return (Some (mkSummary (Some (generateEmergencyId env)) (totalSent a)
                           (ed_location d) (ed_audioRecording d))),
           w4)
      | (Throw e, w4) => (Throw e, w4)
      end.
Proof.
  destruct (activation_context env w) as (w2 & Hctx & Hm2 & _ & _).
  match type of Hctx with _ = (Return ?d0, _) => set (d := d0) in * end.
  destruct (sendEmergencyAlerts_eq env d w2) as (a & w3 & Hsend & _ & _ & _ & _ & Hm3 & _).
  exists d, a, w2, w3. split; [exact Hctx |]. split; [exact Hsend |].
  change (activation env w) with
    ((emergencyData <- executeEmergencyProcedures env ;;
      alertResults <- sendEmergencyAlerts env emergencyData ;;
      m <- gets manager ;;
      storage_saveEmergency env (activation_record m emergencyData alertResults) ;;
      m' <- gets manager ;;
      ret (Some (mkSummary (currentEmergencyId m') (totalSent alertResults)
                   (ed_location emergencyData) (ed_audioRecording emergencyData))))
     (armed env w)).
  unfold bind at 1. rewrite Hctx.
  unfold bind at 1. rewrite Hsend.
  unfold bind at 1. unfold gets at 1. cbv beta iota.
  unfold same_manager in Hm2. rewrite Hm3, Hm2.
  unfold bind at 1.
  rewrite storage_saveEmergency_eq.
  destruct (Storage.saveEmergency (env_saveEmergency env)
              (activation_record (manager (armed env w)) d a) (database w3)) as [[i | e] d'];
    simpl; [| reflexivity].
  unfold bind, gets, ret. simpl. rewrite Hm3, Hm2. reflexivity.
Qed.

(** [activateEmergency] on a manager that is not active. *)
Lemma activateEmergency_idle (env : Env) (w : World) :
  isEmergencyActive (manager w) = false ->
  activateEmergency env w =
    match activation env w with
    | (Return s, w') => (Return s, w')
    | (Throw e, w') => (Throw e, set_isEmergencyActive false w')
    end.
Proof.
  intros Hidle. unfold activateEmergency, bind, gets. rewrite Hidle.
  unfold try_catch, modify, throw. simpl.
  destruct (activation env w) as [[s | e] w']; reflexivity.
Qed.

Lemma activateEmergency_active (env : Env) (w : World) :
  isEmergencyActive (manager w) = true ->
  activateEmergency env w = (Return None, w).
Proof.
  intros Hactive. unfold activateEmergency, bind, gets, ret. rewrite Hactive. reflexivity.
Qed.

(** C1, as the code has it. While an emergency is active a further call of
    [activateEmergency] is turned away without an error: it returns
    [undefined] and leaves the manager, the stored rows, the Bluetooth queue
    and the trace of calls exactly as they were; nothing is queued. *)
Theorem second_activation_is_ignored :
  forall (env : Env) (w : World),
    isEmergencyActive (manager w) = true ->
    activateEmergency env w = (Return None, w).
Proof.
  intros env w Hactive.
  unfold activateEmergency, bind, gets.
  rewrite Hactive.
  reflexivity.
Qed.

Lemma second_activation_is_ignored_witness :
  isEmergencyActive (manager Sample.alarmed) = true /\
  activateEmergency Sample.calm Sample.alarmed = (Return None, Sample.alarmed).
Proof.
  assert (H : isEmergencyActive (manager Sample.alarmed) = true) by (vm_compute; reflexivity).
  split; [exact H |].
  exact (second_activation_is_ignored Sample.calm Sample.alarmed H).
Defined.

(** Activating again while the first emergency is active completes normally
    with [undefined]; no error reaches the caller. *)
Lemma second_activation_counterexample :
  isEmergencyActive (manager Sample.alarmed) = true /\
  fst (activateEmergency Sample.stormy Sample.alarmed) = Return None.
Proof. vm_compute. split; reflexivity. Qed.

Lemma notify_events_sends (contacts : list Contact) :
  forallb is_channel_send (notify_events contacts) = true.
Proof. induction contacts as [| x rest IH]; simpl; [reflexivity | exact IH]. Qed.

Lemma guarded_calls_send (env : Env) (emergencyData : EmergencyData) (w : World)
    (c : Channel) :
  forallb is_channel_send (guarded_calls env emergencyData w c) = true.
Proof.
  unfold guarded_calls, channel_calls.
  destruct (attempted env (manager w) emergencyData c); [| reflexivity].
  destruct c; try reflexivity.
  - destruct (saveEmergencyAlert env); [| reflexivity].
    change (forallb is_channel_send (notify_events (ed_contacts emergencyData)) = true).
    apply notify_events_sends.
  - destruct (firebase (manager w)); reflexivity.
Qed.

(** C2, as the code has it. [activateEmergency] hands the emergency row to
    the store after the dispatch, not before it: the calls of an activation
    are those of the recorder, then every channel send of the dispatch, then
    one [saveEmergency] as the last call, with status 'active' and carrying
    the context and the results that the dispatch returned. *)
Theorem activation_writes_the_row_after_dispatch :
  forall (env : Env) (w : World),
    isEmergencyActive (manager w) = false ->
    exists calls sends row d a w2 w3,
      trace (snd (activateEmergency env w)) =
        trace w ++ calls ++ sends ++ [CallSaveEmergency row] /\
      forallb recorder_event calls = true /\
      forallb is_channel_send sends = true /\
      sendEmergencyAlerts env d w2 = (Return a, w3) /\
      trace w3 = trace w2 ++ sends /\
      rec_status row = Some "active" /\
      rec_data row = Some d /\
      rec_alertResults row = Some a.
Proof.
  intros env w Hidle. rewrite (activateEmergency_idle env w Hidle).
  destruct (activation_eq env w) as (d & a & w2 & w3 & Hctx & Hsend & Hact).
  destruct (activation_context env w) as (w2' & Hctx' & _ & _ & calls & Hcalls & Hrec).
  rewrite Hctx' in Hctx. injection Hctx as Hd Hw2. subst w2'.
  destruct (sendEmergencyAlerts_eq env d w2) as (a' & w3' & Hsend' & _ & _ & _ & Htr & _).
  rewrite Hsend' in Hsend. injection Hsend as Ha Hw3. subst a' w3'.
  exists calls.
  exists (guarded_calls env d w2 BluetoothChannel ++ guarded_calls env d w2 FirebaseChannel
          ++ guarded_calls env d w2 AuthoritiesChannel).
  exists (activation_record (manager (armed env w)) d a), d, a, w2, w3.
  split; [| split; [exact Hrec | split; [| split; [exact Hsend' | split; [exact Htr |]]]]].
  - rewrite Hact, storage_saveEmergency_eq.
    assert (Htrace : trace w3 ++ [CallSaveEmergency (activation_record (manager (armed env w)) d a)] =
              trace w ++ calls ++ (guarded_calls env d w2 BluetoothChannel
                ++ guarded_calls env d w2 FirebaseChannel
                ++ guarded_calls env d w2 AuthoritiesChannel)
                ++ [CallSaveEmergency (activation_record (manager (armed env w)) d a)]).
    { rewrite Htr, Hcalls. simpl. rewrite <- !app_assoc. reflexivity. }
    destruct (Storage.saveEmergency (env_saveEmergency env)
                (activation_record (manager (armed env w)) d a) (database w3))
      as [[i | e] d']; simpl; exact Htrace.
  - rewrite !forallb_app, !guarded_calls_send. reflexivity.
  - repeat split; reflexivity.
Qed.

Lemma activation_writes_the_row_after_dispatch_witness :
  exists calls sends row d a w2 w3,
    trace (snd (activateEmergency Sample.calm Sample.idle)) =
      trace Sample.idle ++ calls ++ sends ++ [CallSaveEmergency row] /\
    forallb recorder_event calls = true /\
    forallb is_channel_send sends = true /\
    sendEmergencyAlerts Sample.calm d w2 = (Return a, w3) /\
    trace w3 = trace w2 ++ sends /\
    rec_status row = Some "active" /\
    rec_data row = Some d /\
    rec_alertResults row = Some a.
Proof.
  exact (activation_writes_the_row_after_dispatch Sample.calm Sample.idle eq_refl).
Defined.

(** With every collaborator answering, the Bluetooth broadcast, the
    Firebase alert and the authorities call all go out before the row is
    written: the first journal write comes after channel sends. *)
Lemma journal_after_sends_counterexample :
  journal_first (trace (snd (activateEmergency Sample.calm Sample.idle))) = false /\
  map is_channel_send (trace (snd (activateEmergency Sample.calm Sample.idle))) =
    [false; false; true; true; true; true; true; false] /\
  map is_journal_write (trace (snd (activateEmergency Sample.calm Sample.idle))) =
    [false; false; false; false; false; false; false; true].
Proof. vm_compute. repeat split; reflexivity. Qed.

Lemma best_effort_location_fails (env : Env) :
  location_fails env -> best_effort_location env = getLocationForEmergency env.
Proof.
  unfold location_fails, best_effort_location.
  destruct (getCurrentLocation env) as [[l |] | e]; [contradiction | reflexivity | reflexivity].
Qed.

Lemma best_effort_recording_disabled (env : Env) (w : World) :
  recording_disabled env w -> best_effort_recording env w = None.
Proof.
  unfold recording_disabled, best_effort_recording. intros [Hf Hs]. rewrite Hf, Hs. reflexivity.
Qed.

Lemma best_effort_recording_fails (env : Env) (w : World) :
  ~ recording_disabled env w -> recording_fails env w ->
  exists msg, best_effort_recording env w = Some (RecordingFailed msg).
Proof.
  unfold recording_disabled, recording_fails, best_effort_recording.
  intros Hon Hfail.
  destruct (Storage.requestFault (env_getSetting env)) as [f |];
    [| destruct (Storage.audioRecordingSetting (database w)) as [[] |];
       [| exfalso; apply Hon; split; reflexivity |]];
    (destruct Hfail as [Hno | [Hrec [e He]]];
     [ rewrite Hno; eexists; reflexivity
     | destruct (audio (manager w)); [| eexists; reflexivity];
       rewrite Hrec, He; eexists; reflexivity ]).
Qed.

Lemma best_effort_contacts_fail (env : Env) (d : Storage.Database) :
  contacts_fail env -> best_effort_contacts env d = [].
Proof.
  unfold contacts_fail, best_effort_contacts.
  destruct (Storage.requestFault (env_getContacts env)); [reflexivity | congruence].
Qed.

(** C8, as the code has it. Context gathering never aborts an activation:
    whatever the location provider, the recorder and the contact store
    answer, [executeEmergencyProcedures] returns a context, and the
    activation throws only when the final write of the row throws. A failed
    geolocation contributes the tracker's last known location ([null] only
    when there is none); a recorder that cannot start contributes the marker
    [{started: false, error}], [null] standing only for recording switched
    off in the settings; a failed contact read contributes the empty list. *)
Theorem context_gathering_never_aborts_activation :
  forall (env : Env) (w : World),
    isEmergencyActive (manager w) = false ->
    exists d a w2 w3,
      executeEmergencyProcedures env (armed env w) = (Return d, w2) /\
      sendEmergencyAlerts env d w2 = (Return a, w3) /\
      (location_fails env -> ed_location d = getLocationForEmergency env) /\
      (recording_disabled env w -> ed_audioRecording d = None) /\
      (~ recording_disabled env w -> recording_fails env w ->
       exists msg, ed_audioRecording d = Some (RecordingFailed msg)) /\
      (contacts_fail env -> ed_contacts d = []) /\
      match Storage.saveEmergency (env_saveEmergency env)
              (activation_record (manager (armed env w)) d a) (database w3) with
      | (Return _, _) =>
          fst (activateEmergency env w) =
            Return (Some (mkSummary (Some (generateEmergencyId env)) (totalSent a)
                            (ed_location d) (ed_audioRecording d)))
      | (Throw e, _) => fst (activateEmergency env w) = Throw e
      end.
Proof.
  intros env w Hidle. rewrite (activateEmergency_idle env w Hidle).
  destruct (activation_eq env w) as (d & a & w2 & w3 & Hctx & Hsend & Hact).
  destruct (activation_context env w) as (w2' & Hctx' & _).
  pose proof Hctx as Hd. rewrite Hctx' in Hd. injection Hd as Hd _.
  exists d, a, w2, w3.
  split; [exact Hctx |]. split; [exact Hsend |].
  rewrite <- Hd. cbn [ed_location ed_audioRecording ed_contacts].
  split; [apply best_effort_location_fails |].
  split; [apply (best_effort_recording_disabled env w) |].
  split; [apply (best_effort_recording_fails env w) |].
  split; [apply best_effort_contacts_fail |].
  rewrite Hact, storage_saveEmergency_eq, <- Hd.
  destruct (Storage.saveEmergency (env_saveEmergency env) _ (database w3)) as [[i | e] d'];
    reflexivity.
Qed.

Lemma context_gathering_never_aborts_activation_witness :
  exists d a w2 w3,
    executeEmergencyProcedures Sample.stormy (armed Sample.stormy Sample.idle) = (Return d, w2) /\
    sendEmergencyAlerts Sample.stormy d w2 = (Return a, w3) /\
    (location_fails Sample.stormy ->
     ed_location d = getLocationForEmergency Sample.stormy) /\
    (recording_disabled Sample.stormy Sample.idle -> ed_audioRecording d = None) /\
    (~ recording_disabled Sample.stormy Sample.idle ->
     recording_fails Sample.stormy Sample.idle ->
     exists msg, ed_audioRecording d = Some (RecordingFailed msg)) /\
    (contacts_fail Sample.stormy -> ed_contacts d = []) /\
    match Storage.saveEmergency (env_saveEmergency Sample.stormy)
            (activation_record (manager (armed Sample.stormy Sample.idle)) d a)
            (database w3) with
    | (Return _, _) =>
        fst (activateEmergency Sample.stormy Sample.idle) =
          Return (Some (mkSummary (Some (generateEmergencyId Sample.stormy)) (totalSent a)
                          (ed_location d) (ed_audioRecording d)))
    | (Throw e, _) => fst (activateEmergency Sample.stormy Sample.idle) = Throw e
    end.
Proof.
  exact (context_gathering_never_aborts_activation Sample.stormy Sample.idle eq_refl).
Defined.

(** A recorder that is refused the microphone contributes a failure marker,
    not [null]; a geolocation that times out contributes the remembered fix,
    not [null]. Both activations complete. *)
Lemma context_gathering_counterexample :
  fst (activateEmergency Sample.stormy Sample.idle) =
    Return (Some (mkSummary (Some "emer_lq2x9k0_abcde") 0 None
                    (Some (RecordingFailed "Permission denied")))) /\
  fst (activateEmergency Sample.no_fix Sample.idle) =
    Return (Some (mkSummary (Some "emer_lq2x9k0_abcde") 4 (Some Sample.here)
                    (Some (RecordingStarted 1700000000000 120000)))).
Proof. vm_compute. split; reflexivity. Qed.

(** C9. When [activateEmergency] throws (only the write of the row can make
    it), [isEmergencyActive] is false in the state it leaves, so the next
    call is not turned away as already active: it runs the activation and
    ends with a summary or with an error, never with [undefined]. *)
Theorem failed_activation_resets_the_flag :
  forall (env : Env) (w : World) (e : Error) (w' : World),
    activateEmergency env w = (Throw e, w') ->
    isEmergencyActive (manager w') = false /\
    forall env',
      activateEmergency env' w' =
        match activation env' w' with
        | (Return s, w'') => (Return s, w'')
        | (Throw e', w'') => (Throw e', set_isEmergencyActive false w'')
        end /\
      fst (activateEmergency env' w') <> Return None.
Proof.
  intros env w e w' H.
  assert (Hflag : isEmergencyActive (manager w') = false).
  { destruct (isEmergencyActive (manager w)) eqn:Hw.
    - rewrite (activateEmergency_active env w Hw) in H. discriminate.
    - rewrite (activateEmergency_idle env w Hw) in H.
      destruct (activation env w) as [[s | e0] w1]; [discriminate |].
      injection H as _ <-. reflexivity. }
  split; [exact Hflag |].
  intros env'. split; [apply activateEmergency_idle, Hflag |].
  rewrite (activateEmergency_idle env' w' Hflag).
  destruct (activation_eq env' w') as (d & a & w2 & w3 & _ & _ & Hact).
  rewrite Hact.
  destruct (storage_saveEmergency env' _ w3) as [[i | e1] w4]; simpl; discriminate.
Qed.

Lemma failed_activation_resets_the_flag_witness :
  let w' := snd (activateEmergency Sample.calm_but_full Sample.idle) in
  activateEmergency Sample.calm_but_full Sample.idle =
    (Throw (mkError "QuotaExceededError"), w') /\
  isEmergencyActive (manager w') = false /\
  forall env',
    activateEmergency env' w' =
      match activation env' w' with
      | (Return s, w'') => (Return s, w'')
      | (Throw e', w'') => (Throw e', set_isEmergencyActive false w'')
      end /\
    fst (activateEmergency env' w') <> Return None.
Proof.
  intros w'.
  assert (H : activateEmergency Sample.calm_but_full Sample.idle =
                (Throw (mkError "QuotaExceededError"), w')) by (vm_compute; reflexivity).
  split; [exact H |].
  exact (failed_activation_resets_the_flag Sample.calm_but_full Sample.idle _ w' H).
Defined.

End Activation.

(* ------------------------------------------------------------------ *)
(** ** Cancellation *)

Section Cancellation.

Import Emergency.

Lemma caught_returns {W} (m : M W unit) (w : W) :
  fst (try_catch m (fun _ => ret tt) w) = Return tt.
Proof.
  unfold try_catch, ret. destruct (m w) as [[[] | e] w']; reflexivity.
Qed.

Lemma stop_and_save_recording_returns (env : Env) (w : World) :
  fst (stop_and_save_recording env w) = Return tt.
Proof.
  unfold stop_and_save_recording, bind, gets.
  destruct (audio (manager w) && audioIsRecording w); [apply caught_returns | reflexivity].
Qed.

Lemma sendCancellationAlerts_returns (env : Env) (w : World) :
  fst (sendCancellationAlerts env w) = Return tt.
Proof. apply caught_returns. Qed.

Lemma cancellation_record_event (env : Env) (m : Manager) :
  cancellation_event (CallSaveEmergency (cancellation_record env m)) = true.
Proof. reflexivity. Qed.

(** The write of the cancellation row adds that row under a free key or
    leaves the rows as they were; it never replaces a row. *)
Lemma journal_cancellation_rows (env : Env) (w : World) :
  same_manager w (journal_cancellation env w) /\
  extends cancellation_event w (journal_cancellation env w) /\
  (same_rows w (journal_cancellation env w) \/
   let row := Storage.stamp (env_saveEmergency env) (cancellation_record env (manager w)) in
   Storage.store_get (rec_id row) (Storage.emergencies (database w)) = None /\
   Storage.emergencies (database (journal_cancellation env w)) =
     Storage.store_insert row (Storage.emergencies (database w))).
Proof.
  unfold journal_cancellation.
  destruct (truthy_id (currentEmergencyId (manager w))).
  - rewrite storage_saveEmergency_eq, saveEmergency_eq.
    split; [reflexivity |]. split.
    + exists [CallSaveEmergency (cancellation_record env (manager w))]. split; reflexivity.
    + destruct (Storage.requestFault (env_saveEmergency env)); [left; reflexivity |].
      destruct (Storage.store_get _ (Storage.emergencies (database w))) eqn:Hfree;
        [left; reflexivity |].
      right. split; reflexivity.
  - split; [reflexivity |]. split; [| left; reflexivity].
    exists []. rewrite app_nil_r. split; reflexivity.
Qed.

Lemma cancelEmergency_inactive (env : Env) (w : World) :
  isEmergencyActive (manager w) = false -> cancelEmergency env w = (Return tt, w).
Proof.
  intros Hidle. unfold cancelEmergency, bind, gets, ret. rewrite Hidle. reflexivity.
Qed.

(** [cancelEmergency] on an active manager never throws: it stops the
    recorder, writes the cancellation row, sends the cancellation alerts
    and clears the manager's emergency fields. *)
Lemma cancelEmergency_active (env : Env) (w : World) :
  isEmergencyActive (manager w) = true ->
  cancelEmergency env w =
    (Return tt,
     disarmed (snd (sendCancellationAlerts env
                      (journal_cancellation env (snd (stop_and_save_recording env w)))))).
Proof.
  intros Hactive. unfold cancelEmergency. unfold bind at 1. unfold gets at 1.
  rewrite Hactive. cbn [negb].
  unfold try_catch at 1. unfold bind at 1.
  pose proof (stop_and_save_recording_returns env w) as H1.
  destruct (stop_and_save_recording env w) as [c1 w1]. simpl in H1. subst c1.
  unfold bind at 1. unfold gets at 1. cbv beta iota.
  unfold bind at 1. cbn [snd].
  assert (H2 :
    (if truthy_id (currentEmergencyId (manager w1))
     then try_catch (storage_saveEmergency env (cancellation_record env (manager w1)) ;; ret tt)
            (fun _ => ret tt)
     else ret tt) w1 = (Return tt, journal_cancellation env w1)).
  { unfold journal_cancellation.
    destruct (truthy_id (currentEmergencyId (manager w1))); [| reflexivity].
    unfold try_catch, bind, ret.
    destruct (storage_saveEmergency env (cancellation_record env (manager w1)) w1)
      as [[i | e] w2]; reflexivity. }
  rewrite H2.
  unfold bind at 1.
  pose proof (sendCancellationAlerts_returns env (journal_cancellation env w1)) as H3.
  destruct (sendCancellationAlerts env (journal_cancellation env w1)) as [c3 w3].
  simpl in H3. subst c3. reflexivity.
Qed.

Lemma store_get_kept (row r : EmergencyRecord) (k : string) (s : Storage.Store) :
  Storage.store_get (rec_id row) s = None ->
  Storage.store_get k s = Some r ->
  Storage.store_get k (Storage.store_insert row s) = Some r.
Proof.
  intros Hfree Hk. rewrite store_get_insert_other; [exact Hk |].
  intros ->. rewrite Hfree in Hk. discriminate.
Qed.

(** What [cancelEmergency] does to the manager, the rows and the trace. *)
Lemma cancelEmergency_effect (env : Env) (w : World) :
  fst (cancelEmergency env w) = Return tt /\
  extends cancellation_event w (snd (cancelEmergency env w)) /\
  (same_rows w (snd (cancelEmergency env w)) \/
   let row := Storage.stamp (env_saveEmergency env) (cancellation_record env (manager w)) in
   Storage.store_get (rec_id row) (Storage.emergencies (database w)) = None /\
   Storage.emergencies (database (snd (cancelEmergency env w))) =
     Storage.store_insert row (Storage.emergencies (database w))) /\
  (isEmergencyActive (manager w) = true ->
   isEmergencyActive (manager (snd (cancelEmergency env w))) = false /\
   currentEmergencyId (manager (snd (cancelEmergency env w))) = None).
Proof.
  destruct (isEmergencyActive (manager w)) eqn:Hw.
  - rewrite (cancelEmergency_active env w Hw). cbn [fst snd].
    set (w1 := snd (stop_and_save_recording env w)).
    set (w2 := journal_cancellation env w1).
    set (w3 := snd (sendCancellationAlerts env w2)).
    assert (M1 : same_manager w w1)
      by exact (stop_and_save_recording_respects same_manager (fun _ => true) env
                  eq_refl (fun _ => eq_refl) w).
    assert (R1 : same_rows w w1)
      by exact (stop_and_save_recording_respects same_rows (fun _ => true) env
                  eq_refl (fun _ => eq_refl) w).
    assert (T1 : extends cancellation_event w w1)
      by exact (stop_and_save_recording_respects (extends cancellation_event)
                  cancellation_event env eq_refl (fun _ => eq_refl) w).
    destruct (journal_cancellation_rows env w1) as (M2 & T2 & R2). fold w2 in M2, T2, R2.
    assert (R3 : same_rows w2 w3)
      by exact (sendCancellationAlerts_respects same_rows (fun _ => true) env
                  (fun _ => eq_refl) (fun _ => eq_refl) w2).
    assert (T3 : extends cancellation_event w2 w3)
      by exact (sendCancellationAlerts_respects (extends cancellation_event)
                  cancellation_event env (fun _ => eq_refl) (fun _ => eq_refl) w2).
    split; [reflexivity |]. split; [| split; [| intros _; split; reflexivity]].
    + assert (T : extends cancellation_event w w3).
      { transitivity w1; [exact T1 |]. transitivity w2; assumption. }
      destruct T as [evs [Hevs Hall]]. exists evs. split; [exact Hevs | exact Hall].
    + unfold same_rows, same_manager in *. cbn [disarmed database set_emergencyStartTime
        set_currentEmergencyId set_isEmergencyActive set_manager].
      rewrite R3. destruct R2 as [R2 | [Hfree Hins]].
      * left. rewrite R2. exact R1.
      * right. cbv zeta in *. rewrite M1, R1 in *. split; [exact Hfree | exact Hins].
  - rewrite (cancelEmergency_inactive env w Hw). cbn [fst snd].
    split; [reflexivity |]. split; [| split; [left; reflexivity | discriminate]].
    exists []. rewrite app_nil_r. split; reflexivity.
Qed.

(** C7. Cancellation does not erase delivery history. [cancelEmergency]
    never throws and never changes or removes a stored row: a row whose
    results record a sent alert for some channel is found under its key,
    unchanged, after the cancellation. To the store it adds at most one
    row, the cancellation row (status 'cancelled', [originalId] the
    cancelled emergency), under a key that was free. Its calls are those of
    a cancellation only (stopping and saving the recording, writing the
    cancellation row, cancellation messages): it dispatches no emergency
    alert, and it leaves an active manager inactive with no current
    emergency id. *)
Theorem cancellation_keeps_delivery_history :
  forall (env : Env) (w : World) (k : string) (r : EmergencyRecord) (a : AlertResults)
         (c : Channel),
    Storage.store_get k (Storage.emergencies (database w)) = Some r ->
    rec_alertResults r = Some a ->
    0 < sent (counters c a) ->
    let w' := snd (cancelEmergency env w) in
    fst (cancelEmergency env w) = Return tt /\
    Storage.store_get k (Storage.emergencies (database w')) = Some r /\
    (Storage.emergencies (database w') = Storage.emergencies (database w) \/
     exists row,
       rec_status row = Some "cancelled" /\
       rec_originalId row = currentEmergencyId (manager w) /\
       Storage.store_get (rec_id row) (Storage.emergencies (database w)) = None /\
       Storage.emergencies (database w') =
         Storage.store_insert row (Storage.emergencies (database w))) /\
    (exists evs, trace w' = trace w ++ evs /\ forallb cancellation_event evs = true) /\
    (isEmergencyActive (manager w) = true ->
     isEmergencyActive (manager w') = false /\ currentEmergencyId (manager w') = None).
Proof.
  intros env w k r a c Hk _ _ w'. subst w'.
  destruct (cancelEmergency_effect env w) as (Hret & Htr & Hrows & Hflags).
  split; [exact Hret |].
  split; [| split; [| split; [exact Htr | exact Hflags]]].
  - destruct Hrows as [Hsame | [Hfree Hins]].
    + unfold same_rows in Hsame. rewrite Hsame. exact Hk.
    + cbv zeta in *. rewrite Hins. apply store_get_kept; assumption.
  - destruct Hrows as [Hsame | [Hfree Hins]].
    + left. exact Hsame.
    + right. cbv zeta in *.
      exists (Storage.stamp (env_saveEmergency env) (cancellation_record env (manager w))).
      repeat split; assumption.
Qed.

Lemma cancellation_keeps_delivery_history_witness :
  let w' := snd (cancelEmergency Sample.calm Sample.alarmed) in
  Storage.store_get "emer_lq2x9k0_abcde" (Storage.emergencies (database Sample.alarmed)) =
    Some Sample.alarm_row /\
  0 < sent (counters BluetoothChannel Sample.alarm_results) /\
  fst (cancelEmergency Sample.calm Sample.alarmed) = Return tt /\
  Storage.store_get "emer_lq2x9k0_abcde" (Storage.emergencies (database w')) =
    Some Sample.alarm_row /\
  (Storage.emergencies (database w') = Storage.emergencies (database Sample.alarmed) \/
   exists row,
     rec_status row = Some "cancelled" /\
     rec_originalId row = currentEmergencyId (manager Sample.alarmed) /\
     Storage.store_get (rec_id row) (Storage.emergencies (database Sample.alarmed)) = None /\
     Storage.emergencies (database w') =
       Storage.store_insert row (Storage.emergencies (database Sample.alarmed))) /\
  (exists evs, trace w' = trace Sample.alarmed ++ evs /\
               forallb cancellation_event evs = true) /\
  (isEmergencyActive (manager Sample.alarmed) = true ->
   isEmergencyActive (manager w') = false /\ currentEmergencyId (manager w') = None).
Proof.
  intros w'.
  assert (H1 : Storage.store_get "emer_lq2x9k0_abcde"
                 (Storage.emergencies (database Sample.alarmed)) = Some Sample.alarm_row)
    by (vm_compute; reflexivity).
  assert (H2 : 0 < sent (counters BluetoothChannel Sample.alarm_results))
    by (vm_compute; lia).
  split; [exact H1 |]. split; [exact H2 |].
  exact (cancellation_keeps_delivery_history Sample.calm Sample.alarmed
           "emer_lq2x9k0_abcde" Sample.alarm_row Sample.alarm_results BluetoothChannel
           H1 eq_refl H2).
Defined.

End Cancellation.

(* ------------------------------------------------------------------ *)
(** ** Failures, retries and the pending rows *)

Section RetryPolicy.

Import Emergency.

Lemma results_ext (a b : AlertResults) :
  (forall c, counters c a = counters c b) ->
  totalSent a = totalSent b -> totalFailed a = totalFailed b -> a = b.
Proof.
  intros Hc Hs Hf.
  pose proof (Hc BluetoothChannel) as HB.
  pose proof (Hc FirebaseChannel) as HF.
  pose proof (Hc AuthoritiesChannel) as HA.
  destruct a, b; simpl in *. congruence.
Qed.

Lemma sends_are_not_timers (evs : list Event) :
  forallb is_channel_send evs = true -> forallb (fun e => negb (is_timer e)) evs = true.
Proof.
  induction evs as [| e evs IH]; simpl; [reflexivity |].
  intros H. apply andb_prop in H. destruct H as [He Hrest].
  rewrite (IH Hrest). destruct e; simpl in *; congruence.
Qed.

(** The dispatch does not read [retryAttempts] or [retryDelay]. *)
Lemma dispatch_ignores_retry_fields (env : Env) (emergencyData : EmergencyData) (w : World)
    (attempts : nat) (delay : Z) :
  fst (sendEmergencyAlerts env emergencyData (with_retry attempts delay w)) =
  fst (sendEmergencyAlerts env emergencyData w).
Proof.
  destruct (sendEmergencyAlerts_eq env emergencyData w)
    as (a & w1 & H1 & K1 & S1 & F1 & _).
  destruct (sendEmergencyAlerts_eq env emergencyData (with_retry attempts delay w))
    as (b & w2 & H2 & K2 & S2 & F2 & _).
  rewrite H1, H2. simpl. f_equal.
  assert (Hk : forall c, counters c b = counters c a).
  { intros c. rewrite K1, K2. destruct c; reflexivity. }
  pose proof (Hk BluetoothChannel) as HB.
  pose proof (Hk FirebaseChannel) as HF.
  pose proof (Hk AuthoritiesChannel) as HA.
  simpl in HB, HF, HA.
  apply results_ext; [exact Hk | |].
  - rewrite S1, S2, HB, HF, HA. reflexivity.
  - rewrite F1, F2, HB, HF, HA. reflexivity.
Qed.

Lemma channel_throws_outcome (env : Env) (emergencyData : EmergencyData) (w : World)
    (c : Channel) (err : Error) :
  channel_throws env emergencyData w c err ->
  channel_outcome env emergencyData w c = mkCounters 0 1 [message err].
Proof.
  unfold channel_throws, channel_outcome. destruct c; intros H; rewrite H; reflexivity.
Qed.

(** C5, as the code has it. A channel send that fails during dispatch adds
    one to that channel's [failed] counter and records the error's message;
    no attempt counter and no retry time are kept, the dispatch sets no
    timer, leaves the manager as it was and gives the same results whatever
    [retryAttempts] and [retryDelay] hold. The one retry schedule is the
    Bluetooth reconnect: a first attempt 3000 ms after the link is lost, and
    after every failed attempt another one exactly 10000 ms later, however
    many attempts have failed; there is no maximum, no growing delay and no
    terminal state. *)
Theorem failures_are_counted_and_reconnects_repeat :
  (forall (env : Env) (emergencyData : EmergencyData) (w : World),
   exists a w' evs,
     sendEmergencyAlerts env emergencyData w = (Return a, w') /\
     manager w' = manager w /\
     trace w' = trace w ++ evs /\
     forallb (fun e => negb (is_timer e)) evs = true /\
     (forall c err,
        attempted env (manager w) emergencyData c = true ->
        channel_throws env emergencyData w c err ->
        counters c a = mkCounters 0 1 [message err]) /\
     (forall attempts delay,
        fst (sendEmergencyAlerts env emergencyData (with_retry attempts delay w)) =
          Return a)) /\
  (forall (n : nat) (s s' : Bluetooth.Manager),
     Bluetooth.timers s = [] ->
     failed_attempts n (snd (Bluetooth.onDisconnected s)) s' ->
     Bluetooth.timers s' =
       [((if Nat.eqb n 0 then 3000 else 10000)%Z, Bluetooth.AttemptReconnect)]).
Proof.
  split.
  - intros env emergencyData w.
    destruct (sendEmergencyAlerts_eq env emergencyData w)
      as (a & w' & Heq & Hk & _ & _ & Htr & Hm & _).
    exists a, w'. eexists.
    split; [exact Heq |]. split; [exact Hm |]. split; [exact Htr |].
    split; [| split].
    + apply sends_are_not_timers. rewrite !forallb_app, !guarded_calls_send. reflexivity.
    + intros c err Ha Hthrow. rewrite Hk. unfold guarded_outcome. rewrite Ha.
      apply channel_throws_outcome, Hthrow.
    + intros attempts delay. rewrite dispatch_ignores_retry_fields, Heq. reflexivity.
  - exact reconnect_schedule.
Qed.

(** Three reconnect attempts refused by the GATT server, after a link loss. *)
Lemma failures_are_counted_and_reconnects_repeat_witness :
  Bluetooth.timers
    (Bluetooth.run [Bluetooth.OpLinkLost; Bluetooth.OpTimer Sample.unreachable;
                    Bluetooth.OpTimer Sample.unreachable;
                    Bluetooth.OpTimer Sample.unreachable] Bluetooth.new) =
    [(10000%Z, Bluetooth.AttemptReconnect)].
Proof.
  assert (H : failed_attempts 3 (snd (Bluetooth.onDisconnected Bluetooth.new))
                (Bluetooth.run [Bluetooth.OpLinkLost; Bluetooth.OpTimer Sample.unreachable;
                                Bluetooth.OpTimer Sample.unreachable;
                                Bluetooth.OpTimer Sample.unreachable] Bluetooth.new)).
  { change (failed_attempts 3 (snd (Bluetooth.onDisconnected Bluetooth.new))
              (snd (Bluetooth.fire_reconnect Sample.unreachable
                 (snd (Bluetooth.fire_reconnect Sample.unreachable
                    (snd (Bluetooth.fire_reconnect Sample.unreachable
                       (snd (Bluetooth.onDisconnected Bluetooth.new))))))))).
    eapply failed_more; [eapply failed_more; [eapply failed_more; [apply failed_none | |] | |] | |];
      reflexivity. }
  exact (proj2 failures_are_counted_and_reconnects_repeat 3 Bluetooth.new _ eq_refl H).
Defined.

(** With [retryAttempts] = 3 as the bound and a backoff doubling from
    [retryDelay] = 5000 ms, the specification's rule gives a retry 20000 ms
    after the second failure and none after the third. The reconnect loop has
    a retry pending 10000 ms after the second failure and again 10000 ms
    after the third. *)
Lemma retry_policy_counterexample :
  let lost_and_failed n :=
    Bluetooth.run (Bluetooth.OpLinkLost :: repeat (Bluetooth.OpTimer Sample.unreachable) n)
      Bluetooth.new in
  let policy :=
    Spec.nextRetryAt (retryAttempts (new true true true))
      (Spec.backoff (retryDelay (new true true true)) 60000 0) 0 in
  pending_retry (lost_and_failed 2) = Some 10000%Z /\
  policy 2 = Some 20000%Z /\
  pending_retry (lost_and_failed 3) = Some 10000%Z /\
  policy 3 = None.
Proof. vm_compute. repeat split; reflexivity. Qed.


End RetryPolicy.
